(** * JibriQueue: the client side of the jibri queue protocol

    A shallow embedding of [src/modules/recording/JibriQueue.js].

    The class keeps a membership flag and the last metrics it saw, sends
    [join] and [leave] requests over an XMPP connection, and answers the
    pushes of the queue service.  The embedding keeps the instance, the
    connection it talks to, the promises it hands out and the events it
    emits in one explicit state, [World]; the transport and the caller act
    on it through [Action]s. *)

From Stdlib Require Import String List Bool Arith Lia.
Import ListNotations.
Open Scope string_scope.
Open Scope list_scope.

(** ** DOM elements, as far as the class looks at them *)

Module Dom.

#[local] Set Warnings "-register-all".

Inductive Node : Type :=
| Elem (tagName : string) (attributes : list (string * string))
       (childNodes : list Node)
| Text (nodeValue : string).

Definition isElement (n : Node) : bool :=
  match n with
  | Elem _ _ _ => true
  | Text _ => false
  end.

Definition tagName (n : Node) : option string :=
  match n with
  | Elem t _ _ => Some t
  | Text _ => None
  end.

Definition hasTag (t : string) (n : Node) : bool :=
  match n with
  | Elem t' _ _ => String.eqb t' t
  | Text _ => false
  end.

Fixpoint lookupAttr (k : string) (l : list (string * string)) : option string :=
  match l with
  | [] => None
  | (k', v) :: r => if String.eqb k' k then Some v else lookupAttr k r
  end.

(** [elem.getAttribute(k)]: the value, or [None] for JavaScript's [null]. *)
Definition getAttribute (k : string) (n : Node) : option string :=
  match n with
  | Elem _ a _ => lookupAttr k a
  | Text _ => None
  end.

Fixpoint putAttr (k v : string) (l : list (string * string))
  : list (string * string) :=
  match l with
  | [] => [(k, v)]
  | (k', v') :: r =>
      if String.eqb k' k then (k', v) :: r else (k', v') :: putAttr k v r
  end.

(** [elem.setAttribute(k, v)]. *)
Definition setAttribute (k v : string) (n : Node) : Node :=
  match n with
  | Elem t a c => Elem t (putAttr k v a) c
  | Text s => Text s
  end.

(** [elem.children]: the child elements, text nodes left out. *)
Definition children (n : Node) : list Node :=
  match n with
  | Elem _ _ c => filter isElement c
  | Text _ => []
  end.

(** [elem.appendChild(c)]. *)
Definition appendChild (c : Node) (n : Node) : Node :=
  match n with
  | Elem t a cs => Elem t a (cs ++ [c])
  | Text s => Text s
  end.

(** All descendants of a node, in document order. *)
Fixpoint descendants (n : Node) : list Node :=
  match n with
  | Elem _ _ c => flat_map (fun k => k :: descendants k) c
  | Text _ => []
  end.

(** [$(n).find(t)] for a tag selector: the descendants with that tag, in
    document order. *)
Definition find (t : string) (n : Node) : list Node :=
  filter (hasTag t) (descendants n).

End Dom.

Import Dom.

(** ** The stanza builder of strophe.js, as far as the class uses it *)

Module Strophe.

(** The attributes of an object literal; a [null] or [undefined] value is
    not set on the element. *)
Fixpoint definedAttrs (l : list (string * option string))
  : list (string * string) :=
  match l with
  | [] => []
  | (k, Some v) :: r => (k, v) :: definedAttrs r
  | (_, None) :: r => definedAttrs r
  end.

Definition xmlElement (name : string) (attrs : list (string * option string))
  : Node :=
  Elem name (fold_left (fun a kv => putAttr (fst kv) (snd kv) a)
                       (definedAttrs attrs) []) [].

(** A builder owns a tree and points at one node of it; [node] is the path
    of child indexes from the root to that node. *)
Record Builder : Type := mkBuilder {
  nodeTree : Node;
  node : list nat
}.

Fixpoint updateNth {A : Type} (i : nat) (f : A -> A) (l : list A) : list A :=
  match l, i with
  | [], _ => []
  | x :: r, O => f x :: r
  | x :: r, S j => x :: updateNth j f r
  end.

Fixpoint updateAt (path : list nat) (f : Node -> Node) (n : Node) : Node :=
  match path with
  | [] => f n
  | i :: rest =>
      match n with
      | Elem t a c => Elem t a (updateNth i (updateAt rest f) c)
      | Text s => Text s
      end
  end.

Fixpoint nodeAt (path : list nat) (n : Node) : option Node :=
  match path with
  | [] => Some n
  | i :: rest =>
      match n with
      | Elem _ _ c =>
          match nth_error c i with
          | Some k => nodeAt rest k
          | None => None
          end
      | Text _ => None
      end
  end.

Definition childCount (n : Node) : nat :=
  match n with
  | Elem _ _ c => List.length c
  | Text _ => 0
  end.

(** [Strophe.NS.CLIENT]. *)
Definition clientNs : string := "jabber:client".

(** [attrs.k] of an object literal: [None] when the key is missing or its
    value is [null]. *)
Fixpoint property (k : string) (l : list (string * option string))
  : option string :=
  match l with
  | [] => None
  | (k', v) :: r => if String.eqb k' k then v else property k r
  end.

(** [attrs.k = v]: the key keeps its place, a new key goes last. *)
Fixpoint assign (k : string) (v : option string)
  (l : list (string * option string)) : list (string * option string) :=
  match l with
  | [] => [(k, v)]
  | (k', v') :: r =>
      if String.eqb k' k then (k', v) :: r else (k', v') :: assign k v r
  end.

(** [!v] on a string, [null] or [undefined]. *)
Definition falsy (v : option string) : bool :=
  match v with
  | None => true
  | Some s => String.eqb s EmptyString
  end.

(** The builder of an [iq] gives it the namespace of client stanzas unless
    the attributes name one. *)
Definition clientAttrs (attrs : list (string * option string))
  : list (string * option string) :=
  if falsy (property "xmlns" attrs)
  then assign "xmlns" (Some clientNs) attrs
  else attrs.

(** [$iq(attrs)]. *)
Definition iq (attrs : list (string * option string)) : Builder :=
  mkBuilder (xmlElement "iq" (clientAttrs attrs)) [].

(** [b.c(name, attrs)]: append a child to the current node and move to it. *)
Definition c (name : string) (attrs : list (string * option string))
  (b : Builder) : Builder :=
  let i := match nodeAt (node b) (nodeTree b) with
           | Some n => childCount n
           | None => 0
           end in
  mkBuilder (updateAt (node b) (appendChild (xmlElement name attrs)) (nodeTree b))
            (node b ++ [i]).

(** [b.up()]: move to the parent of the current node. *)
Definition up (b : Builder) : Builder :=
  mkBuilder (nodeTree b) (removelast (node b)).

(** [b.attrs(more)]: set attributes on the current node. *)
Definition attrs (more : list (string * string)) (b : Builder) : Builder :=
  mkBuilder
    (updateAt (node b)
       (fun n => fold_left (fun m kv => setAttribute (fst kv) (snd kv) m) more n)
       (nodeTree b))
    (node b).

(** [b.tree()]: the stanza that goes on the wire. *)
Definition tree (b : Builder) : Node := nodeTree b.

End Strophe.

(** ** State *)

(** [this._metrics]: a JavaScript object that starts empty; a field that was
    never written reads as [undefined], here [None]. *)
Record Metrics : Type := mkMetrics {
  position : option string;
  estimatedTimeLeft : option string
}.

(** What a promise is rejected with: an [Error] made by the class itself, or
    whatever the connection hands to the error callback of [sendIQ] (the
    error stanza, or [null] when the request timed out). *)
Inductive Reason : Type :=
| Error (message : string)
| TransportError (stanza : option Node).

Inductive PromiseState : Type :=
| Pending
| Fulfilled
| Rejected (reason : Reason).

(** The four closures the class passes to [sendIQ].  The error closures
    capture the [reject] function of one promise, [p]. *)
Inductive Callback : Type :=
| JoinSuccess
| JoinError (p : nat)
| LeaveSuccess
| LeaveError (p : nat).

(** A request handed to [sendIQ] and not yet answered. *)
Record Request : Type := mkRequest {
  stanza : Node;
  callback : Callback;
  errback : Callback
}.

(** The arguments of [addHandler]. *)
Record Handler : Type := mkHandler {
  handlerNs : string;
  handlerName : string;
  handlerType : string;
  handlerId : option string;
  handlerFrom : string;
  matchBareFromJid : bool
}.

(** The connection: its registered handlers (by reference), the stanzas
    given to [send], in order, and the requests given to [sendIQ] that are
    still waiting for their answer. *)
Record XmppConnection : Type := mkConnection {
  handlers : list (nat * Handler);
  nextRef : nat;
  sent : list Node;
  requested : list Node;
  waiting : list Request
}.

(** An [emit] call.  The payload of ['metrics'] is the object [this._metrics]
    itself; [snapshot] is what it holds when the listeners run. *)
Inductive Event : Type :=
| MetricsEvent (snapshot : Metrics)
| TokenEvent (value : option string).

Definition eventName (e : Event) : string :=
  match e with
  | MetricsEvent _ => "metrics"
  | TokenEvent _ => "token"
  end.

(** The [EventEmitter] part of the instance: the listeners, by event name,
    every [emit] call, and what each listener received. *)
Record Emitter : Type := mkEmitter {
  listeners : list (string * nat);
  emitted : list Event;
  delivered : list (nat * Event)
}.

(** The fields of a [JibriQueue] instance. *)
Record JibriQueue : Type := mkJibriQueue {
  _id : nat;
  _metrics : Metrics;
  _hasJoined : bool;
  _jibriQueueJID : string;
  _roomJID : string;
  _connectionHandlerRef : nat
}.

Record World : Type := mkWorld {
  this : JibriQueue;
  _connection : XmppConnection;
  events : Emitter;
  promises : list PromiseState
}.

(** *** Field updates *)

Definition setHasJoined (b : bool) (q : JibriQueue) : JibriQueue :=
  mkJibriQueue (_id q) (_metrics q) b (_jibriQueueJID q) (_roomJID q)
               (_connectionHandlerRef q).

Definition setMetrics (m : Metrics) (q : JibriQueue) : JibriQueue :=
  mkJibriQueue (_id q) m (_hasJoined q) (_jibriQueueJID q) (_roomJID q)
               (_connectionHandlerRef q).

Definition withThis (q : JibriQueue) (w : World) : World :=
  mkWorld q (_connection w) (events w) (promises w).

Definition withConnection (conn : XmppConnection) (w : World) : World :=
  mkWorld (this w) conn (events w) (promises w).

Definition withEvents (e : Emitter) (w : World) : World :=
  mkWorld (this w) (_connection w) e (promises w).

Definition withPromises (ps : list PromiseState) (w : World) : World :=
  mkWorld (this w) (_connection w) (events w) ps.

(** ** The connection *)

Definition newConnection : XmppConnection := mkConnection [] 0 [] [] [].

(** [connection.addHandler(...)]: registers and returns a reference. *)
Definition addHandler (h : Handler) (conn : XmppConnection)
  : nat * XmppConnection :=
  (nextRef conn,
   mkConnection (handlers conn ++ [(nextRef conn, h)]) (S (nextRef conn))
                (sent conn) (requested conn) (waiting conn)).

(** [connection.deleteHandler(ref)]. *)
Definition deleteHandler (ref : nat) (conn : XmppConnection) : XmppConnection :=
  mkConnection (filter (fun rh => negb (Nat.eqb (fst rh) ref)) (handlers conn))
               (nextRef conn) (sent conn) (requested conn) (waiting conn).

Definition hasHandler (ref : nat) (conn : XmppConnection) : bool :=
  existsb (fun rh => Nat.eqb (fst rh) ref) (handlers conn).

(** [connection.send(stanza)]. *)
Definition send (s : Node) (conn : XmppConnection) : XmppConnection :=
  mkConnection (handlers conn) (nextRef conn) (sent conn ++ [s])
               (requested conn) (waiting conn).

(** [connection.sendIQ(stanza, callback, errback)]. *)
Definition sendIQ (s : Node) (cb eb : Callback) (conn : XmppConnection)
  : XmppConnection :=
  mkConnection (handlers conn) (nextRef conn) (sent conn)
               (requested conn ++ [s]) (waiting conn ++ [mkRequest s cb eb]).

Fixpoint removeNth {A : Type} (i : nat) (l : list A) : list A :=
  match l, i with
  | [], _ => []
  | _ :: r, O => r
  | x :: r, S j => x :: removeNth j r
  end.

(** The connection takes the answered request [i] off its list. *)
Definition answered (i : nat) (conn : XmppConnection) : XmppConnection :=
  mkConnection (handlers conn) (nextRef conn) (sent conn) (requested conn)
               (removeNth i (waiting conn)).

(** ** Promises and events *)

(** [new Promise(...)]: a fresh pending promise and its index. *)
Definition newPromise (w : World) : nat * World :=
  (List.length (promises w), withPromises (promises w ++ [Pending]) w).

(** [Promise.reject(r)]: a fresh promise, rejected from the start. *)
Definition promiseReject (r : Reason) (w : World) : nat * World :=
  (List.length (promises w), withPromises (promises w ++ [Rejected r]) w).

(** [reject(r)] of promise [p]: settles it unless it is settled already. *)
Definition reject (p : nat) (r : Reason) (w : World) : World :=
  withPromises
    (Strophe.updateNth p
       (fun s => match s with Pending => Rejected r | _ => s end)
       (promises w))
    w.

Definition promiseState (p : nat) (w : World) : option PromiseState :=
  nth_error (promises w) p.

(** [this.on(name, listener)]. *)
Definition on (name : string) (listener : nat) (w : World) : World :=
  withEvents (mkEmitter (listeners (events w) ++ [(name, listener)])
                        (emitted (events w)) (delivered (events w))) w.

(** [this.emit(name, payload)]: every listener of that name receives it. *)
Definition emit (e : Event) (w : World) : World :=
  let receivers :=
    filter (fun l => String.eqb (fst l) (eventName e)) (listeners (events w)) in
  withEvents (mkEmitter (listeners (events w))
                        (emitted (events w) ++ [e])
                        (delivered (events w)
                           ++ map (fun l => (snd l, e)) receivers)) w.

(** [this.removeAllListeners()]. *)
Definition removeAllListeners (w : World) : World :=
  withEvents (mkEmitter [] (emitted (events w)) (delivered (events w))) w.

(** ** The class *)

Definition jibriQueueNs : string := "http://jitsi.org/protocol/jibri-queue".

Definition stanzasNs : string := "urn:ietf:params:xml:ns:xmpp-stanzas".

(** [a !== b] read as [a === b], on values that are a string, [null] or
    [undefined]. *)
Definition strictEq (a b : option string) : bool :=
  match a, b with
  | Some x, Some y => String.eqb x y
  | None, None => true
  | _, _ => false
  end.

Definition isAction (a : string) (action : option string) : bool :=
  strictEq action (Some a).

Section Class.

(** [Strophe.getText], the text of an element as strophe.js decodes it. *)
Variable getText : Node -> string.

(** [constructor(options)], with the module counter [id] passed in and
    returned. *)
Definition constructor (connection : XmppConnection)
  (jibriQueueJID roomJID : string) (id : nat) : World * nat :=
  let '(ref, conn) :=
    addHandler (mkHandler jibriQueueNs "iq" "set" None jibriQueueJID true)
               connection in
  (mkWorld (mkJibriQueue id (mkMetrics None None) false jibriQueueJID roomJID ref)
           conn (mkEmitter [] [] []) [],
   S id).

Definition joinStanza (q : JibriQueue) : Node :=
  Strophe.tree
    (Strophe.up
       (Strophe.c "jibri-queue"
          [("xmlns", Some jibriQueueNs); ("action", Some "join");
           ("room", Some (_roomJID q))]
          (Strophe.iq [("to", Some (_jibriQueueJID q)); ("type", Some "set")]))).

(** [join()]: the promise it returns, and the state it leaves. *)
Definition join (w : World) : nat * World :=
  if _hasJoined (this w) then
    promiseReject (Error "The queue is already joined!") w
  else
    let '(p, w1) := newPromise w in
    (p, withConnection
          (sendIQ (joinStanza (this w1)) JoinSuccess (JoinError p)
                  (_connection w1))
          w1).

Definition leaveStanza (q : JibriQueue) : Node :=
  Strophe.tree
    (Strophe.up
       (Strophe.c "jibri-queue"
          [("xmlns", Some jibriQueueNs); ("action", Some "leave")]
          (Strophe.iq [("to", Some (_jibriQueueJID q)); ("type", Some "set")]))).

(** [leave()]. *)
Definition leave (w : World) : nat * World :=
  if negb (_hasJoined (this w)) then
    promiseReject (Error "There's no queue to leave!") w
  else
    let '(p, w1) := newPromise w in
    (p, withConnection
          (sendIQ (leaveStanza (this w1)) LeaveSuccess (LeaveError p)
                  (_connection w1))
          w1).

(** The bodies of the four closures; [arg] is what the connection calls
    them with. *)
Definition runCallback (cb : Callback) (arg : option Node) (w : World) : World :=
  match cb with
  | JoinSuccess => withThis (setHasJoined true (this w)) w
  | JoinError p => reject p (TransportError arg) w
  | LeaveSuccess => w
  | LeaveError p => reject p (TransportError arg) w
  end.

(** One turn of the [for] loop of the ['info'] case: the metrics object and
    the local [updated]. *)
Definition infoChild (st : Metrics * bool) (child : Node) : Metrics * bool :=
  let '(m, updated) := st in
  match tagName child with
  | Some t =>
      if String.eqb t "position" then
        let position' := getText child in
        if negb (strictEq (Some position') (position m)) then
          (mkMetrics (Some position') (estimatedTimeLeft m), true)
        else (m, updated)
      else if String.eqb t "time" then
        let estimatedTimeLeft' := getText child in
        if negb (strictEq (Some estimatedTimeLeft') (estimatedTimeLeft m)) then
          (mkMetrics (position m) (Some estimatedTimeLeft'), true)
        else (m, updated)
      else (m, updated)
  | None => (m, updated)
  end.

Definition infoLoop (cs : list Node) (m : Metrics) : Metrics * bool :=
  fold_left infoChild cs (m, false).

Definition errorAck (ack : Strophe.Builder) : Strophe.Builder :=
  Strophe.up
    (Strophe.c "service-unavailable" [("xmlns", Some stanzasNs)]
       (Strophe.c "error" [("type", Some "cancel")]
          (Strophe.attrs [("type", "error")] ack))).

(** [_onIQ(iq)]: [true] when it returns [true], [false] when it returns
    nothing. *)
Definition _onIQ (iq : Node) (w : World) : bool * World :=
  if negb (_hasJoined (this w)) then (false, w)
  else
    let jibriQueueNodes := find "jibri-queue" iq in
    let from := getAttribute "from" iq in
    if negb (strictEq from (Some (_jibriQueueJID (this w))))
       || Nat.eqb (List.length jibriQueueNodes) 0
    then (false, w)
    else
      match jibriQueueNodes with
      | [] => (false, w)
      | jibriQueue :: _ =>
          let action := getAttribute "action" jibriQueue in
          let value := getAttribute "value" jibriQueue in
          let ack := Strophe.iq [("type", Some "result"); ("to", from);
                                 ("id", getAttribute "id" iq)] in
          let '(ack', w') :=
            if isAction "info" action then
              let '(m, updated) :=
                infoLoop (children jibriQueue) (_metrics (this w)) in
              let w1 := withThis (setMetrics m (this w)) w in
              (ack, if updated then emit (MetricsEvent m) w1 else w1)
            else if isAction "token" action then
              (ack, emit (TokenEvent value) w)
            else (errorAck ack, w) in
          (true, withConnection (send (Strophe.tree ack') (_connection w')) w')
      end.

(** [dispose()]. *)
Definition dispose (w : World) : World :=
  removeAllListeners
    (withConnection
       (deleteHandler (_connectionHandlerRef (this w)) (_connection w)) w).

(** [get id()]. *)
Definition id (q : JibriQueue) : nat := _id q.

(** ** What can happen to an instance *)

(** The caller calls a method; the connection answers a waiting request,
    with success or with an error; the connection hands an inbound stanza to
    the registered handler. *)
Inductive Action : Type :=
| Join
| Leave
| Dispose
| On (name : string) (listener : nat)
| Success (i : nat) (result : option Node)
| Failure (i : nat) (error : option Node)
| Deliver (iq : Node).

(** One action.  A delivery reaches [_onIQ] as long as the handler is
    registered.  A connection that also drops a handler whose callback
    returned nothing makes fewer deliveries: its runs are runs of this
    relation with those deliveries left out. *)
Definition step (w : World) (a : Action) : World :=
  match a with
  | Join => snd (join w)
  | Leave => snd (leave w)
  | Dispose => dispose w
  | On name listener => on name listener w
  | Success i result =>
      match nth_error (waiting (_connection w)) i with
      | Some r =>
          runCallback (callback r) result
            (withConnection (answered i (_connection w)) w)
      | None => w
      end
  | Failure i error =>
      match nth_error (waiting (_connection w)) i with
      | Some r =>
          runCallback (errback r) error
            (withConnection (answered i (_connection w)) w)
      | None => w
      end
  | Deliver iq =>
      if hasHandler (_connectionHandlerRef (this w)) (_connection w)
      then snd (_onIQ iq w)
      else w
  end.

Definition run (w : World) (trace : list Action) : World :=
  fold_left step trace w.

(** A fresh instance on a fresh connection. *)
Definition fresh (jibriQueueJID roomJID : string) : World :=
  fst (constructor newConnection jibriQueueJID roomJID 0).

End Class.

(** ** The wire contract of the acknowledgments *)

Definition idAttr (id : option string) : list (string * string) :=
  match id with
  | Some i => [("id", i)]
  | None => []
  end.

(** A result stanza addressed to [to], with the correlation id copied; as
    every [iq] of the builder it is in the namespace of client stanzas. *)
Definition resultAck (to : string) (id : option string) : Node :=
  Elem "iq"
    ([("type", "result"); ("to", to)] ++ idAttr id
       ++ [("xmlns", "jabber:client")]) [].

(** An error-type stanza carrying [service-unavailable] in the namespace of
    the stanza errors. *)
Definition unavailableAck (to : string) (id : option string) : Node :=
  Elem "iq"
    ([("type", "error"); ("to", to)] ++ idAttr id
       ++ [("xmlns", "jabber:client")])
    [Elem "error" [("type", "cancel")]
       [Elem "service-unavailable" [("xmlns", stanzasNs)] []]].

(** ** Notions used in the statements *)

(** An inbound stanza that [_onIQ] processes: the instance has joined, the
    sender is the queue, and [jibriQueue] is the first [jibri-queue] element
    of the stanza. *)
Definition accepted (iq : Node) (w : World) (jibriQueue : Node) : Prop :=
  _hasJoined (this w) = true /\
  getAttribute "from" iq = Some (_jibriQueueJID (this w)) /\
  hd_error (find "jibri-queue" iq) = Some jibriQueue.

(** The value that [child] carries differs from the one stored in [m]. *)
Definition differs (getText : Node -> string) (m : Metrics) (child : Node)
  : Prop :=
  (tagName child = Some "position" /\ position m <> Some (getText child)) \/
  (tagName child = Some "time" /\ estimatedTimeLeft m <> Some (getText child)).

(** The last child of [cs] with tag [t], in document order. *)
Definition lastTagged (t : string) (cs : list Node) : option Node :=
  match rev (filter (hasTag t) cs) with
  | [] => None
  | c :: _ => Some c
  end.

(** Every field of [cs] carries the value that [m] stores already. *)
Definition allStored (getText : Node -> string) (m : Metrics)
  (cs : list Node) : Prop :=
  forall c, In c cs ->
    (tagName c = Some "position" -> position m = Some (getText c)) /\
    (tagName c = Some "time" -> estimatedTimeLeft m = Some (getText c)).

(** A request as [join()] makes it, and as [leave()] makes it. *)
Definition isJoinRequest (q : JibriQueue) (r : Request) : Prop :=
  stanza r = joinStanza q /\ callback r = JoinSuccess /\
  exists p, errback r = JoinError p.

Definition isLeaveRequest (q : JibriQueue) (r : Request) : Prop :=
  stanza r = leaveStanza q /\ callback r = LeaveSuccess /\
  exists p, errback r = LeaveError p.

(** Every request that waits for its answer is one of the two. *)
Definition wellFormed (w : World) : Prop :=
  Forall (fun r => isJoinRequest (this w) r \/ isLeaveRequest (this w) r)
         (waiting (_connection w)).

(** No promise of the instance is fulfilled. *)
Definition noneFulfilled (w : World) : Prop :=
  Forall (fun s => s <> Fulfilled) (promises w).

(** The connection answers a request with success. *)
Definition isSuccess (a : Action) : bool :=
  match a with
  | Success _ _ => true
  | _ => false
  end.

(** An acknowledgment addressed to [to]: a result or an error stanza. *)
Definition isAck (to : string) (s : Node) : Prop :=
  exists id, s = resultAck to id \/ s = unavailableAck to id.

(** The fields of [cs] agree: two children with the same tag, [position] or
    [time], carry the same text. *)
Definition agreeing (getText : Node -> string) (cs : list Node) : Prop :=
  forall c c',
    In c cs -> In c' cs ->
    tagName c = tagName c' ->
    tagName c = Some "position" \/ tagName c = Some "time" ->
    getText c = getText c'.

(** ** Sample stanzas and states *)

Module Sample.

(** A decoder for the examples: the text nodes of the element, joined. *)
Definition textOf (n : Node) : string :=
  match n with
  | Elem _ _ c =>
      fold_left
        (fun s k => match k with Text t => String.append s t | _ => s end)
        c ""
  | Text _ => ""
  end.

Definition queueJid : string := "jibri-queue@auth.example.net".

Definition roomJid : string := "room@conference.example.net".

Definition pushFrom (sender id : string) (attrs : list (string * string))
  (kids : list Node) : Node :=
  Elem "iq" [("type", "set"); ("from", sender); ("id", id)]
    [Elem "jibri-queue" (("xmlns", jibriQueueNs) :: attrs) kids].

Definition push : string -> list (string * string) -> list Node -> Node :=
  pushFrom queueJid.

Definition field (tag value : string) : Node := Elem tag [] [Text value].

Definition infoPush (id : string) (kids : list Node) : Node :=
  push id [("action", "info")] kids.

Definition tokenPush (id value : string) : Node :=
  push id [("action", "token"); ("value", value)] [].

(** The queue service answering from a full JID; the handler is registered
    with [matchBareFromJid], so the connection delivers it. *)
Definition resourcePush : Node :=
  pushFrom "jibri-queue@auth.example.net/focus" "r1"
           [("action", "token"); ("value", "abc")] [].

Definition steadyPush : Node :=
  infoPush "i1" [field "position" "5"; field "time" "30"].

Definition repeatedPush : Node :=
  infoPush "i2" [field "position" "5"; field "time" "30";
                 field "position" "7"; field "time" "10"].

Definition emptyInfoPush : Node :=
  infoPush "i3" [Text "  "; Elem "note" [] [Text "soon"]].

(** A stanza whose first [jibri-queue] element sits below a wrapper and is
    followed by a second one. *)
Definition nestedPush : Node :=
  Elem "iq" [("type", "set"); ("from", queueJid); ("id", "t1")]
    [Elem "forwarded" []
       [Elem "jibri-queue"
          [("xmlns", jibriQueueNs); ("action", "token"); ("value", "abc")] []];
     Elem "jibri-queue" [("xmlns", jibriQueueNs); ("action", "info")]
       [field "position" "9"]].

Definition start : World := fresh queueJid roomJid.

Definition joined : World := run textOf start [Join; Success 0 None].

Definition informed : World := run textOf joined [Deliver steadyPush].

End Sample.

(** ** Properties *)

Lemma strictEq_refl (a : option string) : strictEq a a = true.
Proof.
  destruct a as [s|]; simpl; [apply String.eqb_refl | reflexivity].
Qed.

Lemma strictEq_eq (a b : option string) : strictEq a b = true <-> a = b.
Proof.
  destruct a as [x|], b as [y|]; simpl; split; intro H;
    try discriminate; try reflexivity.
  - apply String.eqb_eq in H. now subst.
  - injection H as ->. apply String.eqb_refl.
Qed.

Lemma isAction_false (a : string) (action : option string) :
  action <> Some a -> isAction a action = false.
Proof.
  intro H. unfold isAction.
  destruct (strictEq action (Some a)) eqn:E; [|reflexivity].
  apply strictEq_eq in E. contradiction.
Qed.

Lemma iq_result_tree (to : string) (id : option string) :
  Strophe.tree
    (Strophe.iq [("type", Some "result"); ("to", Some to); ("id", id)])
  = resultAck to id.
Proof. destruct id; reflexivity. Qed.

Lemma iq_error_tree (to : string) (id : option string) :
  Strophe.tree
    (errorAck
       (Strophe.iq [("type", Some "result"); ("to", Some to); ("id", id)]))
  = unavailableAck to id.
Proof. destruct id; reflexivity. Qed.

Section Handler.

Variable getText : Node -> string.

Lemma onIQ_not_joined (iq : Node) (w : World) :
  _hasJoined (this w) = false -> _onIQ getText iq w = (false, w).
Proof. intro H. unfold _onIQ. now rewrite H. Qed.

Lemma onIQ_invalid (iq : Node) (w : World) :
  getAttribute "from" iq <> Some (_jibriQueueJID (this w))
  \/ find "jibri-queue" iq = [] ->
  _onIQ getText iq w = (false, w).
Proof.
  intro H. unfold _onIQ.
  destruct (_hasJoined (this w)); simpl; [|reflexivity].
  destruct H as [H | H].
  - destruct (strictEq (getAttribute "from" iq)
                       (Some (_jibriQueueJID (this w)))) eqn:E.
    + apply strictEq_eq in E. contradiction.
    + reflexivity.
  - rewrite H. simpl. now rewrite orb_true_r.
Qed.

Lemma onIQ_accepted (iq : Node) (w : World) (jq : Node) :
  accepted iq w jq ->
  _onIQ getText iq w =
    let to := _jibriQueueJID (this w) in
    let id := getAttribute "id" iq in
    let action := getAttribute "action" jq in
    if isAction "info" action then
      let mu := infoLoop getText (children jq) (_metrics (this w)) in
      let w1 := withThis (setMetrics (fst mu) (this w)) w in
      let w' := if snd mu then emit (MetricsEvent (fst mu)) w1 else w1 in
      (true, withConnection (send (resultAck to id) (_connection w')) w')
    else if isAction "token" action then
      let w' := emit (TokenEvent (getAttribute "value" jq)) w in
      (true, withConnection (send (resultAck to id) (_connection w')) w')
    else
      (true, withConnection (send (unavailableAck to id) (_connection w)) w).
Proof.
  intros (Hj & Hf & Hn). unfold _onIQ.
  rewrite Hj, Hf, strictEq_refl. simpl negb.
  destruct (find "jibri-queue" iq) as [|jq' rest]; [discriminate|].
  injection Hn as ->. cbn [List.length Nat.eqb orb].
  cbv zeta.
  destruct (isAction "info" (getAttribute "action" jq)).
  - destruct (infoLoop getText (children jq) (_metrics (this w))) as [m u].
    cbn [fst snd]. now rewrite iq_result_tree.
  - destruct (isAction "token" (getAttribute "action" jq)).
    + now rewrite iq_result_tree.
    + now rewrite iq_error_tree.
Qed.

End Handler.

Lemma nth_error_snoc {A : Type} (l : list A) (x : A) :
  nth_error (l ++ [x]) (List.length l) = Some x.
Proof.
  induction l as [|y l IH]; simpl; [reflexivity | exact IH].
Qed.

Lemma withThis_same (w : World) : withThis (this w) w = w.
Proof. now destruct w. Qed.

Lemma setMetrics_same (q : JibriQueue) : setMetrics (_metrics q) q = q.
Proof. now destruct q. Qed.

(** *** Calls that the guards turn down *)

(** C5. Whatever the state: [join()] on an instance that has joined, and
    [leave()] on one that has not, return a promise that is rejected from
    the start with the error of that guard, and leave the connection as it
    was, so no request is sent; the instance and its events are untouched
    too. *)
Theorem guarded_calls_reject_without_request (w : World) :
  (_hasJoined (this w) = true ->
   promiseState (fst (join w)) (snd (join w))
     = Some (Rejected (Error "The queue is already joined!")) /\
   _connection (snd (join w)) = _connection w /\
   this (snd (join w)) = this w /\
   events (snd (join w)) = events w) /\
  (_hasJoined (this w) = false ->
   promiseState (fst (leave w)) (snd (leave w))
     = Some (Rejected (Error "There's no queue to leave!")) /\
   _connection (snd (leave w)) = _connection w /\
   this (snd (leave w)) = this w /\
   events (snd (leave w)) = events w).
Proof.
  split; intro H.
  - unfold join. rewrite H. unfold promiseReject, promiseState. simpl.
    now rewrite nth_error_snoc.
  - unfold leave. rewrite H. unfold promiseReject, promiseState. simpl.
    now rewrite nth_error_snoc.
Qed.

Lemma guarded_calls_reject_without_request_witness :
  (promiseState (fst (join Sample.joined)) (snd (join Sample.joined))
     = Some (Rejected (Error "The queue is already joined!")) /\
   requested (_connection (snd (join Sample.joined)))
     = requested (_connection Sample.joined)) /\
  (promiseState (fst (leave Sample.start)) (snd (leave Sample.start))
     = Some (Rejected (Error "There's no queue to leave!")) /\
   requested (_connection (snd (leave Sample.start))) = []).
Proof.
  split.
  - destruct (proj1 (guarded_calls_reject_without_request Sample.joined)
                eq_refl) as (Hp & Hc & _).
    split; [exact Hp | now rewrite Hc].
  - destruct (proj2 (guarded_calls_reject_without_request Sample.start)
                eq_refl) as (Hp & Hc & _).
    split; [exact Hp | now rewrite Hc].
Defined.

(** *** Acknowledgments *)

Lemma accepted_or_ignored (iq : Node) (w : World) :
  (exists jq, accepted iq w jq) \/
  (_hasJoined (this w) = false \/
   getAttribute "from" iq <> Some (_jibriQueueJID (this w)) \/
   find "jibri-queue" iq = []).
Proof.
  unfold accepted.
  destruct (_hasJoined (this w)); [|now right; left].
  destruct (strictEq (getAttribute "from" iq)
                     (Some (_jibriQueueJID (this w)))) eqn:E.
  - apply strictEq_eq in E.
    destruct (find "jibri-queue" iq) as [|jq rest].
    + right. right. now right.
    + left. exists jq. now repeat split.
  - right. right. left. intro H. apply strictEq_eq in H. congruence.
Qed.

Lemma onIQ_accepted_sent (getText : Node -> string) (iq : Node) (w : World)
  (jq : Node) :
  accepted iq w jq ->
  fst (_onIQ getText iq w) = true /\
  exists ack,
    sent (_connection (snd (_onIQ getText iq w)))
      = sent (_connection w) ++ [ack] /\
    (ack = resultAck (_jibriQueueJID (this w)) (getAttribute "id" iq) \/
     ack = unavailableAck (_jibriQueueJID (this w)) (getAttribute "id" iq)).
Proof.
  intro H. rewrite (onIQ_accepted getText iq w jq H). cbv zeta.
  destruct (isAction "info" (getAttribute "action" jq)).
  - destruct (infoLoop getText (children jq) (_metrics (this w))) as [m [|]];
      (split; [reflexivity | eexists; split; [reflexivity | now left]]).
  - destruct (isAction "token" (getAttribute "action" jq));
      (split; [reflexivity | eexists; split; [reflexivity |]]);
      [now left | now right].
Qed.

(** C3, amended. [_onIQ] sends no acknowledgment, changes nothing and
    returns nothing on two paths: the instance has not joined, or the
    stanza fails the check of its sender and payload.  Every other stanza
    is accepted, and an accepted stanza is acknowledged with exactly one
    stanza and reported as handled. *)
Theorem acknowledged_exactly_when_accepted (getText : Node -> string)
  (iq : Node) (w : World) :
  (_hasJoined (this w) = false \/
   getAttribute "from" iq <> Some (_jibriQueueJID (this w)) \/
   find "jibri-queue" iq = [] ->
   _onIQ getText iq w = (false, w)) /\
  (forall jq, accepted iq w jq ->
     fst (_onIQ getText iq w) = true /\
     exists ack,
       sent (_connection (snd (_onIQ getText iq w)))
         = sent (_connection w) ++ [ack]) /\
  ((exists jq, accepted iq w jq) \/
   (_hasJoined (this w) = false \/
    getAttribute "from" iq <> Some (_jibriQueueJID (this w)) \/
    find "jibri-queue" iq = [])).
Proof.
  split; [|split].
  - intros [H | H].
    + now apply onIQ_not_joined.
    + now apply onIQ_invalid.
  - intros jq H.
    destruct (onIQ_accepted_sent getText iq w jq H) as (Hr & ack & Hs & _).
    split; [exact Hr | now exists ack].
  - apply accepted_or_ignored.
Qed.

Lemma acknowledged_exactly_when_accepted_witness :
  _onIQ Sample.textOf Sample.resourcePush Sample.joined
    = (false, Sample.joined) /\
  fst (_onIQ Sample.textOf (Sample.tokenPush "t1" "abc") Sample.joined)
    = true.
Proof.
  destruct (acknowledged_exactly_when_accepted Sample.textOf
              Sample.resourcePush Sample.joined) as (Hi & _).
  destruct (acknowledged_exactly_when_accepted Sample.textOf
              (Sample.tokenPush "t1" "abc") Sample.joined) as (_ & Ha & _).
  split.
  - apply Hi. right. left. discriminate.
  - apply (Ha (Elem "jibri-queue"
                 [("xmlns", jibriQueueNs); ("action", "token");
                  ("value", "abc")] [])).
    repeat split; reflexivity.
Defined.

(** C3 as the spec has it fails: a stanza that reaches the handler of a
    joined instance from a full JID of the queue is not acknowledged and not
    reported as handled. *)
Lemma joined_message_without_ack :
  _hasJoined (this Sample.joined) = true /\
  fst (_onIQ Sample.textOf Sample.resourcePush Sample.joined) = false /\
  ~ (exists ack,
       sent (_connection
               (snd (_onIQ Sample.textOf Sample.resourcePush Sample.joined)))
         = sent (_connection Sample.joined) ++ [ack]).
Proof.
  split; [reflexivity | split; [reflexivity |]].
  intros [ack H]. vm_compute in H. discriminate H.
Qed.

(** C6. An accepted stanza whose [action] is neither ['info'] nor ['token']
    (or is missing) is answered with one stanza: an [iq] of type [error] to
    the sender, with the [id] of the stanza, carrying [service-unavailable]
    in the namespace of the stanza errors; no event is emitted and the
    instance is unchanged. *)
Theorem unknown_action_gets_error_ack (getText : Node -> string)
  (iq : Node) (w : World) (jq : Node) :
  accepted iq w jq ->
  getAttribute "action" jq <> Some "info" ->
  getAttribute "action" jq <> Some "token" ->
  let w' := snd (_onIQ getText iq w) in
  sent (_connection w')
    = sent (_connection w)
        ++ [Elem "iq"
              ([("type", "error"); ("to", _jibriQueueJID (this w))]
                 ++ idAttr (getAttribute "id" iq)
                 ++ [("xmlns", "jabber:client")])
              [Elem "error" [("type", "cancel")]
                 [Elem "service-unavailable"
                    [("xmlns", "urn:ietf:params:xml:ns:xmpp-stanzas")] []]]] /\
  events w' = events w /\
  this w' = this w.
Proof.
  intros H Hi Ht w'. subst w'.
  rewrite (onIQ_accepted getText iq w jq H). cbv zeta.
  rewrite (isAction_false _ _ Hi), (isAction_false _ _ Ht).
  repeat split.
Qed.

Lemma unknown_action_gets_error_ack_witness :
  sent (_connection
          (snd (_onIQ Sample.textOf (Sample.push "u1" [("action", "status")] [])
                      Sample.joined)))
  = [Elem "iq"
       [("type", "error"); ("to", Sample.queueJid); ("id", "u1");
        ("xmlns", "jabber:client")]
       [Elem "error" [("type", "cancel")]
          [Elem "service-unavailable"
             [("xmlns", "urn:ietf:params:xml:ns:xmpp-stanzas")] []]]].
Proof.
  apply (unknown_action_gets_error_ack Sample.textOf
           (Sample.push "u1" [("action", "status")] []) Sample.joined
           (Elem "jibri-queue"
              [("xmlns", jibriQueueNs); ("action", "status")] [])).
  - repeat split; reflexivity.
  - discriminate.
  - discriminate.
Defined.

(** *** Token pushes *)

Lemma isAction_true (a : string) : isAction a (Some a) = true.
Proof. apply strictEq_refl. Qed.

Lemma onIQ_token (getText : Node -> string) (iq : Node) (w : World)
  (jq : Node) :
  accepted iq w jq ->
  getAttribute "action" jq = Some "token" ->
  snd (_onIQ getText iq w)
  = withConnection
      (send (resultAck (_jibriQueueJID (this w)) (getAttribute "id" iq))
            (_connection w))
      (emit (TokenEvent (getAttribute "value" jq)) w).
Proof.
  intros H Ha. rewrite (onIQ_accepted getText iq w jq H). cbv zeta.
  rewrite Ha. reflexivity.
Qed.

(** C8. An accepted ['token'] push emits one ['token'] event carrying the
    [value] attribute of the payload, whatever was emitted before: the same
    push handled twice in a row emits two such events with the same value. *)
Theorem token_pushes_are_not_deduplicated (getText : Node -> string)
  (iq : Node) (w : World) (jq : Node) :
  accepted iq w jq ->
  getAttribute "action" jq = Some "token" ->
  let value := getAttribute "value" jq in
  let w1 := snd (_onIQ getText iq w) in
  let w2 := snd (_onIQ getText iq w1) in
  emitted (events w1) = emitted (events w) ++ [TokenEvent value] /\
  emitted (events w2)
    = emitted (events w) ++ [TokenEvent value; TokenEvent value].
Proof.
  intros H Ha value w1 w2.
  assert (E1 : w1 = withConnection
                      (send (resultAck (_jibriQueueJID (this w))
                                       (getAttribute "id" iq))
                            (_connection w))
                      (emit (TokenEvent value) w))
    by (apply onIQ_token; assumption).
  assert (H1 : accepted iq w1 jq)
    by (rewrite E1; destruct H as (Hj & Hf & Hn); repeat split; assumption).
  split.
  - rewrite E1. reflexivity.
  - subst w2. rewrite (onIQ_token getText iq w1 jq H1 Ha).
    rewrite E1. simpl. rewrite <- app_assoc. reflexivity.
Qed.

Lemma token_pushes_are_not_deduplicated_witness :
  emitted (events
             (run Sample.textOf Sample.joined
                [Deliver (Sample.tokenPush "t1" "abc");
                 Deliver (Sample.tokenPush "t1" "abc")]))
  = [TokenEvent (Some "abc"); TokenEvent (Some "abc")].
Proof.
  apply (token_pushes_are_not_deduplicated Sample.textOf
           (Sample.tokenPush "t1" "abc") Sample.joined
           (Elem "jibri-queue"
              [("xmlns", jibriQueueNs); ("action", "token"); ("value", "abc")]
              [])).
  - repeat split; reflexivity.
  - reflexivity.
Defined.

(** *** The loop over the fields of an ['info'] push *)

Section InfoLoop.

Variable getText : Node -> string.

Lemma some_neq_strictEq (s : string) (o : option string) :
  o <> Some s <-> strictEq (Some s) o = false.
Proof.
  split; intro H.
  - destruct (strictEq (Some s) o) eqn:E; [|reflexivity].
    apply strictEq_eq in E. congruence.
  - intro E. subst o. rewrite strictEq_refl in H. discriminate.
Qed.

Lemma tagName_hasTag (t : string) (c : Node) :
  tagName c = Some t <-> hasTag t c = true.
Proof.
  destruct c as [t' a k | s]; simpl.
  - rewrite String.eqb_eq. split; congruence.
  - split; discriminate.
Qed.

(** A [position] child. *)
Lemma infoChild_position (m : Metrics) (u : bool) (c : Node) :
  tagName c = Some "position" ->
  infoChild getText (m, u) c
  = if strictEq (Some (getText c)) (position m) then (m, u)
    else (mkMetrics (Some (getText c)) (estimatedTimeLeft m), true).
Proof.
  intro H. unfold infoChild. rewrite H, String.eqb_refl. cbv zeta.
  now destruct (strictEq (Some (getText c)) (position m)).
Qed.

(** A [time] child. *)
Lemma infoChild_time (m : Metrics) (u : bool) (c : Node) :
  tagName c = Some "time" ->
  infoChild getText (m, u) c
  = if strictEq (Some (getText c)) (estimatedTimeLeft m) then (m, u)
    else (mkMetrics (position m) (Some (getText c)), true).
Proof.
  intro H. unfold infoChild. rewrite H.
  change (String.eqb "time" "position") with false.
  rewrite String.eqb_refl. cbv zeta.
  now destruct (strictEq (Some (getText c)) (estimatedTimeLeft m)).
Qed.

(** Any other child. *)
Lemma infoChild_other (st : Metrics * bool) (c : Node) :
  tagName c <> Some "position" ->
  tagName c <> Some "time" ->
  infoChild getText st c = st.
Proof.
  intros Hp Ht. destruct st as [m u]. unfold infoChild.
  destruct (tagName c) as [t|]; [|reflexivity].
  destruct (String.eqb t "position") eqn:Ep.
  - apply String.eqb_eq in Ep. congruence.
  - destruct (String.eqb t "time") eqn:Et; [|reflexivity].
    apply String.eqb_eq in Et. congruence.
Qed.

Lemma tag_cases (c : Node) :
  tagName c = Some "position" \/ tagName c = Some "time" \/
  (tagName c <> Some "position" /\ tagName c <> Some "time").
Proof.
  destruct (tagName c) as [t|].
  - destruct (String.eqb t "position") eqn:Ep.
    + apply String.eqb_eq in Ep. left. congruence.
    + destruct (String.eqb t "time") eqn:Et.
      * apply String.eqb_eq in Et. right. left. congruence.
      * apply String.eqb_neq in Ep, Et. right. right. split; congruence.
  - right. right. split; discriminate.
Qed.

(** The flag after one child: set before, or the child differs. *)
Lemma infoChild_updated (m : Metrics) (u : bool) (c : Node) :
  snd (infoChild getText (m, u) c) = true <-> u = true \/ differs getText m c.
Proof.
  unfold differs.
  destruct (tag_cases c) as [Hp | [Ht | [Hp Ht]]].
  - rewrite (infoChild_position m u c Hp).
    destruct (strictEq (Some (getText c)) (position m)) eqn:E; simpl.
    + apply strictEq_eq in E. split; [now left|].
      intros [H | [[_ H] | [H _]]]; congruence.
    + apply some_neq_strictEq in E. split; [|reflexivity].
      intros _. right. left. now split.
  - rewrite (infoChild_time m u c Ht).
    destruct (strictEq (Some (getText c)) (estimatedTimeLeft m)) eqn:E; simpl.
    + apply strictEq_eq in E. split; [now left|].
      intros [H | [[H _] | [_ H]]]; congruence.
    + apply some_neq_strictEq in E. split; [|reflexivity].
      intros _. right. right. now split.
  - rewrite (infoChild_other (m, u) c Hp Ht). simpl. split; [now left|].
    intros [H | [[H _] | [H _]]]; [exact H | contradiction | contradiction].
Qed.

(** The metrics after one child do not depend on the flag. *)
Lemma infoChild_metrics (m : Metrics) (u u' : bool) (c : Node) :
  fst (infoChild getText (m, u) c) = fst (infoChild getText (m, u') c).
Proof.
  destruct (tag_cases c) as [Hp | [Ht | [Hp Ht]]].
  - rewrite !(infoChild_position _ _ c Hp).
    now destruct (strictEq (Some (getText c)) (position m)).
  - rewrite !(infoChild_time _ _ c Ht).
    now destruct (strictEq (Some (getText c)) (estimatedTimeLeft m)).
  - now rewrite !(infoChild_other _ c Hp Ht).
Qed.

(** A field is written only by a child of its tag whose text differs from
    the stored value, and then it holds that text. *)
Lemma infoChild_writes (m : Metrics) (u : bool) (c : Node) :
  let m' := fst (infoChild getText (m, u) c) in
  (position m' <> position m ->
   tagName c = Some "position" /\ position m <> Some (getText c) /\
   position m' = Some (getText c)) /\
  (estimatedTimeLeft m' <> estimatedTimeLeft m ->
   tagName c = Some "time" /\ estimatedTimeLeft m <> Some (getText c) /\
   estimatedTimeLeft m' = Some (getText c)).
Proof.
  destruct (tag_cases c) as [Hp | [Ht | [Hp Ht]]]; cbv zeta.
  - rewrite (infoChild_position m u c Hp).
    destruct (strictEq (Some (getText c)) (position m)) eqn:E; simpl;
      split; intro H; try congruence.
    apply some_neq_strictEq in E. now repeat split.
  - rewrite (infoChild_time m u c Ht).
    destruct (strictEq (Some (getText c)) (estimatedTimeLeft m)) eqn:E; simpl;
      split; intro H; try congruence.
    apply some_neq_strictEq in E. now repeat split.
  - rewrite (infoChild_other (m, u) c Hp Ht). simpl. split; congruence.
Qed.

End InfoLoop.

Section InfoPush.

Variable getText : Node -> string.

Lemma infoLoop_snoc (cs : list Node) (c : Node) (m : Metrics) :
  infoLoop getText (cs ++ [c]) m
  = infoChild getText (infoLoop getText cs m) c.
Proof. unfold infoLoop. now rewrite fold_left_app. Qed.

Lemma infoChild_same (m : Metrics) (u : bool) (c : Node) :
  ~ differs getText m c -> infoChild getText (m, u) c = (m, u).
Proof.
  intro H. unfold differs in H.
  destruct (tag_cases c) as [Hp | [Ht | [Hp Ht]]].
  - rewrite (infoChild_position getText m u c Hp).
    destruct (strictEq (Some (getText c)) (position m)) eqn:E; [reflexivity|].
    apply some_neq_strictEq in E. exfalso. apply H. left. now split.
  - rewrite (infoChild_time getText m u c Ht).
    destruct (strictEq (Some (getText c)) (estimatedTimeLeft m)) eqn:E;
      [reflexivity|].
    apply some_neq_strictEq in E. exfalso. apply H. right. now split.
  - now apply infoChild_other.
Qed.

Lemma allStored_not_differs (m : Metrics) (cs : list Node) (c : Node) :
  allStored getText m cs -> In c cs -> ~ differs getText m c.
Proof.
  intros H Hc [[Ht Hd] | [Ht Hd]]; destruct (H c Hc) as (Hp & He).
  - now apply Hd, Hp.
  - now apply Hd, He.
Qed.

(** Fields that are all stored already leave the metrics and the flag. *)
Lemma infoLoop_quiet (cs : list Node) (m : Metrics) :
  allStored getText m cs -> infoLoop getText cs m = (m, false).
Proof.
  unfold infoLoop. induction cs as [|c cs IH]; intro H; [reflexivity|].
  cbn [fold_left]. rewrite infoChild_same.
  - apply IH. intros c' Hc'. apply H. now right.
  - apply (allStored_not_differs m (c :: cs)); [exact H | now left].
Qed.

(** The flag after the loop: some child differed from what was stored when
    its turn came. *)
Lemma infoLoop_updated (cs : list Node) (m : Metrics) :
  snd (infoLoop getText cs m) = true <->
  exists pre c post,
    cs = pre ++ c :: post /\ differs getText (fst (infoLoop getText pre m)) c.
Proof.
  induction cs as [|x l IH] using rev_ind.
  - split; [discriminate|].
    intros (pre & c & post & H & _). now destruct pre.
  - rewrite infoLoop_snoc.
    destruct (infoLoop getText l m) as [ml ul] eqn:El.
    rewrite infoChild_updated. simpl in IH. split.
    + intros [Hu | Hd].
      * apply IH in Hu. destruct Hu as (pre & c & post & -> & Hd).
        exists pre, c, (post ++ [x]). split; [|exact Hd].
        now rewrite <- app_assoc.
      * exists l, x, []. split; [reflexivity|]. now rewrite El.
    + intros (pre & c & post & Hs & Hd).
      destruct post as [|y post'] using rev_ind.
      * apply app_inj_tail in Hs. destruct Hs as [-> ->].
        right. now rewrite El in Hd.
      * clear IHpost'. left. apply IH.
        change (pre ++ c :: post' ++ [y]) with (pre ++ (c :: post') ++ [y])
          in Hs.
        rewrite app_assoc in Hs. apply app_inj_tail in Hs.
        destruct Hs as [-> ->]. now exists pre, c, post'.
Qed.

(** A loop that leaves the flag down has written nothing. *)
Lemma infoLoop_unchanged (cs : list Node) (m : Metrics) :
  snd (infoLoop getText cs m) = false -> fst (infoLoop getText cs m) = m.
Proof.
  induction cs as [|x l IH] using rev_ind; [reflexivity|].
  rewrite infoLoop_snoc.
  destruct (infoLoop getText l m) as [ml ul]. simpl in IH. intro H.
  assert (Hn : ~ (ul = true \/ differs getText ml x)).
  { intro Hc. apply (infoChild_updated getText ml ul x) in Hc. congruence. }
  rewrite infoChild_same by tauto. simpl.
  apply IH. destruct ul; [exfalso; apply Hn; now left | reflexivity].
Qed.

Lemma lastTagged_snoc (t : string) (cs : list Node) (c : Node) :
  lastTagged t (cs ++ [c])
  = if hasTag t c then Some c else lastTagged t cs.
Proof.
  unfold lastTagged. rewrite filter_app, rev_app_distr. simpl.
  now destruct (hasTag t c).
Qed.

Lemma hasTag_other (t t' : string) (c : Node) :
  tagName c = Some t' -> t' <> t -> hasTag t c = false.
Proof.
  intros H Hn. destruct (hasTag t c) eqn:E; [|reflexivity].
  apply tagName_hasTag in E. congruence.
Qed.

Lemma hasTag_none (t : string) (c : Node) :
  tagName c <> Some t -> hasTag t c = false.
Proof.
  intro H. destruct (hasTag t c) eqn:E; [|reflexivity].
  apply tagName_hasTag in E. contradiction.
Qed.

(** Last wins: after the loop each field holds the text of the last child
    of its tag, or what it held before when there is none. *)
Lemma infoLoop_last_wins (cs : list Node) (m : Metrics) :
  position (fst (infoLoop getText cs m))
    = match lastTagged "position" cs with
      | Some c => Some (getText c)
      | None => position m
      end /\
  estimatedTimeLeft (fst (infoLoop getText cs m))
    = match lastTagged "time" cs with
      | Some c => Some (getText c)
      | None => estimatedTimeLeft m
      end.
Proof.
  induction cs as [|x l [IHp IHt]] using rev_ind; [now split|].
  rewrite infoLoop_snoc, !lastTagged_snoc.
  destruct (infoLoop getText l m) as [ml ul]. simpl in IHp, IHt.
  destruct (tag_cases x) as [Hp | [Ht | [Hp Ht]]].
  - rewrite (infoChild_position getText ml ul x Hp).
    rewrite (proj1 (tagName_hasTag "position" x) Hp).
    rewrite (hasTag_other "time" "position" x Hp) by discriminate.
    destruct (strictEq (Some (getText x)) (position ml)) eqn:E; simpl.
    + apply strictEq_eq in E. split; [now symmetry | exact IHt].
    + split; [reflexivity | exact IHt].
  - rewrite (infoChild_time getText ml ul x Ht).
    rewrite (proj1 (tagName_hasTag "time" x) Ht).
    rewrite (hasTag_other "position" "time" x Ht) by discriminate.
    destruct (strictEq (Some (getText x)) (estimatedTimeLeft ml)) eqn:E; simpl.
    + apply strictEq_eq in E. split; [exact IHp | now symmetry].
    + split; [exact IHp | reflexivity].
  - rewrite (infoChild_other getText (ml, ul) x Hp Ht).
    rewrite (hasTag_none "position" x Hp), (hasTag_none "time" x Ht).
    now split.
Qed.

(** What [_onIQ] does with an accepted ['info'] push. *)
Lemma onIQ_info (iq : Node) (w : World) (jq : Node) :
  accepted iq w jq ->
  getAttribute "action" jq = Some "info" ->
  snd (_onIQ getText iq w)
  = let mu := infoLoop getText (children jq) (_metrics (this w)) in
    let w1 := withThis (setMetrics (fst mu) (this w)) w in
    let w' := if snd mu then emit (MetricsEvent (fst mu)) w1 else w1 in
    withConnection
      (send (resultAck (_jibriQueueJID (this w)) (getAttribute "id" iq))
            (_connection w'))
      w'.
Proof.
  intros H Ha. rewrite (onIQ_accepted getText iq w jq H). cbv zeta.
  rewrite Ha. reflexivity.
Qed.

(** A push whose fields are all stored already is acknowledged, and that is
    all. *)
Lemma onIQ_info_quiet (iq : Node) (w : World) (jq : Node) :
  accepted iq w jq ->
  getAttribute "action" jq = Some "info" ->
  allStored getText (_metrics (this w)) (children jq) ->
  snd (_onIQ getText iq w)
  = withConnection
      (send (resultAck (_jibriQueueJID (this w)) (getAttribute "id" iq))
            (_connection w))
      w.
Proof.
  intros H Ha Hs. rewrite (onIQ_info iq w jq H Ha). cbv zeta.
  rewrite (infoLoop_quiet _ _ Hs). cbn [fst snd].
  now rewrite setMetrics_same, withThis_same.
Qed.

End InfoPush.

(** *** Info pushes *)

(** C4. While an accepted ['info'] push is processed, a field of the
    metrics is written only by a child of its tag whose text differs from
    the value stored at that moment; one ['metrics'] event is emitted when
    some child differed from what was stored when its turn came, and
    otherwise none is emitted and the metrics are as before.  A push all of
    whose fields are stored already changes nothing and emits nothing, the
    first time and when it comes again. *)
Theorem metrics_event_iff_a_field_changed (getText : Node -> string)
  (iq : Node) (w : World) (jq : Node) :
  accepted iq w jq ->
  getAttribute "action" jq = Some "info" ->
  let cs := children jq in
  let stored := fun pre => fst (infoLoop getText pre (_metrics (this w))) in
  let w' := snd (_onIQ getText iq w) in
  _metrics (this w') = stored cs /\
  (forall pre c post, cs = pre ++ c :: post ->
     (position (stored (pre ++ [c])) <> position (stored pre) ->
      tagName c = Some "position" /\
      position (stored pre) <> Some (getText c) /\
      position (stored (pre ++ [c])) = Some (getText c)) /\
     (estimatedTimeLeft (stored (pre ++ [c]))
        <> estimatedTimeLeft (stored pre) ->
      tagName c = Some "time" /\
      estimatedTimeLeft (stored pre) <> Some (getText c) /\
      estimatedTimeLeft (stored (pre ++ [c])) = Some (getText c))) /\
  ((exists pre c post,
      cs = pre ++ c :: post /\ differs getText (stored pre) c) ->
   emitted (events w')
     = emitted (events w) ++ [MetricsEvent (_metrics (this w'))]) /\
  (~ (exists pre c post,
        cs = pre ++ c :: post /\ differs getText (stored pre) c) ->
   emitted (events w') = emitted (events w) /\
   _metrics (this w') = _metrics (this w)) /\
  (allStored getText (_metrics (this w)) cs ->
   this w' = this w /\
   emitted (events w') = emitted (events w) /\
   emitted (events (snd (_onIQ getText iq w'))) = emitted (events w)).
Proof.
  intros H Ha cs stored w'.
  assert (Ew : w' = snd (_onIQ getText iq w)) by reflexivity.
  rewrite (onIQ_info getText iq w jq H Ha) in Ew. cbv zeta in Ew.
  fold cs in Ew.
  assert (Hu := infoLoop_updated getText cs (_metrics (this w))).
  split; [|split; [|split; [|split]]].
  - rewrite Ew. subst stored. cbv beta.
    now destruct (infoLoop getText cs (_metrics (this w))) as [m [|]].
  - intros pre c post _. subst stored. cbv beta.
    rewrite infoLoop_snoc.
    destruct (infoLoop getText pre (_metrics (this w))) as [mp up].
    apply infoChild_writes.
  - intro Hex. apply Hu in Hex. rewrite Ew.
    destruct (infoLoop getText cs (_metrics (this w))) as [m u].
    simpl in Hex. subst u. reflexivity.
  - intro Hex. rewrite Ew.
    assert (Hf := infoLoop_unchanged getText cs (_metrics (this w))).
    destruct (infoLoop getText cs (_metrics (this w))) as [m [|]].
    + exfalso. apply Hex, Hu. reflexivity.
    + simpl in Hf. split; [reflexivity | now apply Hf].
  - intro Hs.
    assert (E1 := onIQ_info_quiet getText iq w jq H Ha Hs).
    fold w' in E1.
    assert (Ht : this w' = this w) by now rewrite E1.
    split; [exact Ht | split; [now rewrite E1|]].
    assert (H' : accepted iq w' jq)
      by (unfold accepted; rewrite Ht; exact H).
    assert (Hs' : allStored getText (_metrics (this w')) (children jq))
      by now rewrite Ht.
    rewrite (onIQ_info_quiet getText iq w' jq H' Ha Hs').
    now rewrite E1.
Qed.

Lemma metrics_event_iff_a_field_changed_witness :
  emitted (events
             (run Sample.textOf Sample.informed
                [Deliver Sample.steadyPush; Deliver Sample.steadyPush]))
  = emitted (events Sample.informed).
Proof.
  apply (metrics_event_iff_a_field_changed Sample.textOf Sample.steadyPush
           Sample.informed
           (Elem "jibri-queue" [("xmlns", jibriQueueNs); ("action", "info")]
              [Sample.field "position" "5"; Sample.field "time" "30"])).
  - repeat split; reflexivity.
  - reflexivity.
  - intros c [<- | [<- | []]]; split; intro E;
      try reflexivity; discriminate E.
Defined.

(** C9. After an accepted ['info'] push with several [position] children
    (one is enough), the stored position is the text of the last of them in
    document order; the same holds for [time] and the estimated time left. *)
Theorem last_field_wins (getText : Node -> string)
  (iq : Node) (w : World) (jq : Node) :
  accepted iq w jq ->
  getAttribute "action" jq = Some "info" ->
  let m' := _metrics (this (snd (_onIQ getText iq w))) in
  (forall c, lastTagged "position" (children jq) = Some c ->
     position m' = Some (getText c)) /\
  (forall c, lastTagged "time" (children jq) = Some c ->
     estimatedTimeLeft m' = Some (getText c)).
Proof.
  intros H Ha m'.
  assert (Em : m' = fst (infoLoop getText (children jq) (_metrics (this w)))).
  { subst m'. rewrite (onIQ_info getText iq w jq H Ha). cbv zeta.
    now destruct (infoLoop getText (children jq) (_metrics (this w)))
      as [m [|]]. }
  destruct (infoLoop_last_wins getText (children jq) (_metrics (this w)))
    as [Hp Ht].
  rewrite Em. split; intros c Hc.
  - now rewrite Hp, Hc.
  - now rewrite Ht, Hc.
Qed.

Lemma last_field_wins_witness :
  _metrics (this (snd (_onIQ Sample.textOf Sample.repeatedPush Sample.joined)))
  = mkMetrics (Some "7") (Some "10").
Proof.
  destruct (last_field_wins Sample.textOf Sample.repeatedPush Sample.joined
              (Elem "jibri-queue" [("xmlns", jibriQueueNs); ("action", "info")]
                 [Sample.field "position" "5"; Sample.field "time" "30";
                  Sample.field "position" "7"; Sample.field "time" "10"]))
    as [Hp Ht].
  - repeat split; reflexivity.
  - reflexivity.
  - specialize (Hp (Sample.field "position" "7") eq_refl).
    specialize (Ht (Sample.field "time" "10") eq_refl).
    destruct (_metrics
                (this (snd (_onIQ Sample.textOf Sample.repeatedPush
                                  Sample.joined)))) as [p t].
    simpl in Hp, Ht. now rewrite Hp, Ht.
Defined.

(** C10. An accepted ['info'] push none of whose child elements is a
    [position] or a [time] leaves the instance, and so its metrics, as it
    was, emits nothing, and is still answered with one stanza: a childless
    [iq] of type [result] to the sender, with the [id] of the stanza. *)
Theorem info_without_fields_is_acked_only (getText : Node -> string)
  (iq : Node) (w : World) (jq : Node) :
  accepted iq w jq ->
  getAttribute "action" jq = Some "info" ->
  (forall c, In c (children jq) ->
     tagName c <> Some "position" /\ tagName c <> Some "time") ->
  let w' := snd (_onIQ getText iq w) in
  this w' = this w /\
  events w' = events w /\
  sent (_connection w')
    = sent (_connection w)
        ++ [Elem "iq"
              ([("type", "result"); ("to", _jibriQueueJID (this w))]
                 ++ idAttr (getAttribute "id" iq)
                 ++ [("xmlns", "jabber:client")]) []].
Proof.
  intros H Ha Hc w'. subst w'.
  rewrite (onIQ_info_quiet getText iq w jq H Ha).
  - repeat split.
  - intros c Hin. destruct (Hc c Hin) as [Hp Ht].
    split; intro E; contradiction.
Qed.

Lemma info_without_fields_is_acked_only_witness :
  snd (_onIQ Sample.textOf Sample.emptyInfoPush Sample.informed)
  = withConnection
      (send (resultAck Sample.queueJid (Some "i3"))
            (_connection Sample.informed))
      Sample.informed.
Proof.
  destruct (info_without_fields_is_acked_only Sample.textOf
              Sample.emptyInfoPush Sample.informed
              (Elem "jibri-queue" [("xmlns", jibriQueueNs); ("action", "info")]
                 [Text "  "; Elem "note" [] [Text "soon"]]))
    as (Ht & He & Hs).
  - repeat split; reflexivity.
  - reflexivity.
  - intros c [<- | []]. split; discriminate.
  - reflexivity.
Defined.

(** *** Traces *)

Section Traces.

Variable getText : Node -> string.

Lemma run_snoc (w : World) (trace : list Action) (a : Action) :
  run getText w (trace ++ [a]) = step getText (run getText w trace) a.
Proof. unfold run. now rewrite fold_left_app. Qed.

Lemma run_app (w : World) (t1 t2 : list Action) :
  run getText w (t1 ++ t2) = run getText (run getText w t1) t2.
Proof. unfold run. now rewrite fold_left_app. Qed.

(** What [_onIQ] never touches. *)
Lemma onIQ_frame (iq : Node) (w : World) :
  let w' := snd (_onIQ getText iq w) in
  waiting (_connection w') = waiting (_connection w) /\
  requested (_connection w') = requested (_connection w) /\
  promises w' = promises w /\
  _hasJoined (this w') = _hasJoined (this w) /\
  _jibriQueueJID (this w') = _jibriQueueJID (this w) /\
  _roomJID (this w') = _roomJID (this w).
Proof.
  cbv zeta.
  destruct (accepted_or_ignored iq w) as [[jq H] | H].
  - rewrite (onIQ_accepted getText iq w jq H). cbv zeta.
    destruct (isAction "info" (getAttribute "action" jq)).
    + destruct (infoLoop getText (children jq) (_metrics (this w)))
        as [m [|]]; repeat split.
    + destruct (isAction "token" (getAttribute "action" jq)); repeat split.
  - assert (E : _onIQ getText iq w = (false, w)).
    { destruct H as [H | H];
        [now apply onIQ_not_joined | now apply onIQ_invalid]. }
    rewrite E. repeat split.
Qed.

Lemma In_removeNth {A : Type} (i : nat) (l : list A) (x : A) :
  In x (removeNth i l) -> In x l.
Proof.
  revert i. induction l as [|y l IH]; intros [|i] H; simpl in *;
    try contradiction.
  - now right.
  - destruct H as [H | H]; [now left | right; now apply (IH i)].
Qed.

Lemma wellFormed_frame (w w' : World) :
  waiting (_connection w') = waiting (_connection w) ->
  _jibriQueueJID (this w') = _jibriQueueJID (this w) ->
  _roomJID (this w') = _roomJID (this w) ->
  wellFormed w -> wellFormed w'.
Proof.
  unfold wellFormed, isJoinRequest, isLeaveRequest, joinStanza, leaveStanza.
  intros -> -> ->. trivial.
Qed.

Lemma wellFormed_answered (i : nat) (w : World) :
  wellFormed w -> wellFormed (withConnection (answered i (_connection w)) w).
Proof.
  unfold wellFormed. rewrite !Forall_forall. intros H r Hr.
  apply H. simpl in Hr. now apply In_removeNth in Hr.
Qed.

Lemma wellFormed_callback (cb : Callback) (arg : option Node) (w : World) :
  wellFormed w -> wellFormed (runCallback cb arg w).
Proof.
  destruct cb; simpl; trivial; apply wellFormed_frame; reflexivity.
Qed.

Lemma wellFormed_step (w : World) (a : Action) :
  wellFormed w -> wellFormed (step getText w a).
Proof.
  intro H. destruct a as [| | |n l|i res|i err|iq]; simpl.
  - unfold join. destruct (_hasJoined (this w)).
    + revert H. apply wellFormed_frame; reflexivity.
    + unfold wellFormed in *. simpl. apply Forall_app. split; [exact H|].
      constructor; [|constructor]. left.
      repeat split. now eexists.
  - unfold leave. destruct (_hasJoined (this w)); simpl.
    + unfold wellFormed in *. simpl. apply Forall_app. split; [exact H|].
      constructor; [|constructor]. right.
      repeat split. now eexists.
    + revert H. apply wellFormed_frame; reflexivity.
  - revert H. apply wellFormed_frame; reflexivity.
  - revert H. apply wellFormed_frame; reflexivity.
  - destruct (nth_error (waiting (_connection w)) i); [|exact H].
    now apply wellFormed_callback, wellFormed_answered.
  - destruct (nth_error (waiting (_connection w)) i); [|exact H].
    now apply wellFormed_callback, wellFormed_answered.
  - destruct (hasHandler _ _); [|exact H].
    destruct (onIQ_frame iq w) as (Hw & _ & _ & _ & Hq & Hr).
    revert H. now apply wellFormed_frame.
Qed.

Lemma wellFormed_run (w : World) (trace : list Action) :
  wellFormed w -> wellFormed (run getText w trace).
Proof.
  intro H. induction trace as [|a l IH] using rev_ind; [exact H|].
  rewrite run_snoc. now apply wellFormed_step.
Qed.

Lemma wellFormed_fresh (jid room : string) : wellFormed (fresh jid room).
Proof. constructor. Qed.

(** The flag goes up in one way only. *)
Lemma flag_raised_by_join_success (w : World) (a : Action) :
  wellFormed w ->
  _hasJoined (this w) = false ->
  _hasJoined (this (step getText w a)) = true ->
  exists i result r,
    a = Success i result /\
    nth_error (waiting (_connection w)) i = Some r /\
    isJoinRequest (this w) r.
Proof.
  intros Hwf H0 H1. destruct a as [| | |n l|i res|i err|iq]; simpl in H1.
  - unfold join in H1. rewrite H0 in H1. simpl in H1. congruence.
  - unfold leave in H1. rewrite H0 in H1. simpl in H1. congruence.
  - congruence.
  - congruence.
  - destruct (nth_error (waiting (_connection w)) i) as [r|] eqn:E;
      [|congruence].
    exists i, res, r. split; [reflexivity | split; [exact E|]].
    unfold wellFormed in Hwf. rewrite Forall_forall in Hwf.
    destruct (Hwf r (nth_error_In _ _ E)) as [Hj | (_ & Hc & _)];
      [exact Hj|].
    rewrite Hc in H1. simpl in H1. congruence.
  - destruct (nth_error (waiting (_connection w)) i) as [r|] eqn:E;
      [|congruence].
    unfold wellFormed in Hwf. rewrite Forall_forall in Hwf.
    destruct (Hwf r (nth_error_In _ _ E))
      as [(_ & _ & p & He) | (_ & _ & p & He)];
      rewrite He in H1; simpl in H1; congruence.
  - destruct (hasHandler _ _); [|congruence].
    rewrite (onIQ_not_joined getText iq w H0) in H1. simpl in H1. congruence.
Qed.

(** A join request that is answered with success raises the flag. *)
Lemma join_success_raises_flag (w : World) (i : nat) (result : option Node)
  (r : Request) :
  nth_error (waiting (_connection w)) i = Some r ->
  callback r = JoinSuccess ->
  _hasJoined (this (step getText w (Success i result))) = true.
Proof. intros E Hc. simpl. now rewrite E, Hc. Qed.

End Traces.

(** *** The membership flag *)

(** C7. On every state an instance can reach, a step that takes the flag
    from not joined to joined is the connection answering a waiting join
    request with success, which runs the success callback of [join()]; the
    constructor leaves the flag down. *)
Theorem only_join_success_sets_joined (getText : Node -> string)
  (jid room : string) (trace : list Action) (a : Action) :
  let w := run getText (fresh jid room) trace in
  _hasJoined (this (fresh jid room)) = false /\
  (_hasJoined (this w) = false ->
   _hasJoined (this (step getText w a)) = true ->
   exists i result r,
     a = Success i result /\
     nth_error (waiting (_connection w)) i = Some r /\
     isJoinRequest (this w) r).
Proof.
  cbv zeta. split; [reflexivity|].
  apply flag_raised_by_join_success, wellFormed_run, wellFormed_fresh.
Qed.

Lemma only_join_success_sets_joined_witness :
  exists i result r,
    Success 0 None = Success i result /\
    nth_error
      (waiting (_connection (run Sample.textOf Sample.start [Join]))) i
      = Some r /\
    isJoinRequest (this (run Sample.textOf Sample.start [Join])) r.
Proof.
  apply (only_join_success_sets_joined Sample.textOf Sample.queueJid
           Sample.roomJid [Join] (Success 0 None));
    reflexivity.
Defined.

(** C2, amended. On every state an instance can reach, the flag is up only
    if, earlier in the trace, the connection answered a waiting join request
    with success; and [dispose()] leaves the flag as it is. *)
Theorem joined_only_after_join_success (getText : Node -> string)
  (jid room : string) (trace : list Action) :
  let w := run getText (fresh jid room) trace in
  (_hasJoined (this w) = true ->
   exists pre i result post r,
     trace = pre ++ Success i result :: post /\
     nth_error (waiting (_connection (run getText (fresh jid room) pre))) i
       = Some r /\
     isJoinRequest (this (run getText (fresh jid room) pre)) r) /\
  _hasJoined (this (dispose w)) = _hasJoined (this w).
Proof.
  cbv zeta. split; [|reflexivity].
  induction trace as [|a l IH] using rev_ind; [discriminate|].
  rewrite run_snoc. intro H.
  destruct (_hasJoined (this (run getText (fresh jid room) l))) eqn:E.
  - destruct (IH eq_refl) as (pre & i & result & post & r & -> & Hn & Hr).
    exists pre, i, result, (post ++ [a]), r.
    split; [now rewrite <- app_assoc | now split].
  - destruct (flag_raised_by_join_success getText _ a
                (wellFormed_run getText _ l (wellFormed_fresh jid room)) E H)
      as (i & result & r & -> & Hn & Hr).
    exists l, i, result, [], r.
    split; [reflexivity | split; assumption].
Qed.

Lemma joined_only_after_join_success_witness :
  exists pre i result post r,
    [Join; Success 0 None; Dispose] = pre ++ Success i result :: post /\
    nth_error (waiting (_connection (run Sample.textOf Sample.start pre))) i
      = Some r /\
    isJoinRequest (this (run Sample.textOf Sample.start pre)) r.
Proof.
  apply (joined_only_after_join_success Sample.textOf Sample.queueJid
           Sample.roomJid [Join; Success 0 None; Dispose]).
  reflexivity.
Defined.

(** C2 as the spec has it fails: the flag is still up after [dispose()],
    and after a [leave()] that the queue acknowledged. *)
Lemma flag_stays_up_after_dispose_and_leave :
  _hasJoined
    (this (run Sample.textOf Sample.start [Join; Success 0 None; Dispose]))
  = true /\
  _hasJoined
    (this (run Sample.textOf Sample.start
             [Join; Success 0 None; Leave; Success 0 None]))
  = true.
Proof. split; reflexivity. Qed.

(** *** Promises *)

Lemma Forall_updateNth {A : Type} (P : A -> Prop) (f : A -> A) (i : nat)
  (l : list A) :
  (forall x, P x -> P (f x)) -> Forall P l ->
  Forall P (Strophe.updateNth i f l).
Proof.
  intros Hf H. revert i. induction H as [|x l Hx Hl IH]; intros [|i]; simpl;
    constructor; auto.
Qed.

Lemma nth_error_updateNth_snoc {A : Type} (f : A -> A) (l : list A) (x : A) :
  nth_error (Strophe.updateNth (List.length l) f (l ++ [x])) (List.length l)
  = Some (f x).
Proof.
  induction l as [|y l IH]; simpl; [reflexivity | exact IH].
Qed.

Section Promises.

Variable getText : Node -> string.

Lemma noneFulfilled_callback (cb : Callback) (arg : option Node) (w : World) :
  noneFulfilled w -> noneFulfilled (runCallback cb arg w).
Proof.
  unfold noneFulfilled. destruct cb; simpl; trivial;
    apply Forall_updateNth; intros [| |r]; congruence.
Qed.

Lemma noneFulfilled_step (w : World) (a : Action) :
  noneFulfilled w -> noneFulfilled (step getText w a).
Proof.
  intro H. destruct a as [| | |n l|i res|i err|iq]; simpl.
  - unfold join, noneFulfilled in *. destruct (_hasJoined (this w)); simpl;
      apply Forall_app; split; trivial; repeat constructor; discriminate.
  - unfold leave, noneFulfilled in *. destruct (_hasJoined (this w)); simpl;
      apply Forall_app; split; trivial; repeat constructor; discriminate.
  - exact H.
  - exact H.
  - destruct (nth_error (waiting (_connection w)) i); [|exact H].
    now apply noneFulfilled_callback.
  - destruct (nth_error (waiting (_connection w)) i); [|exact H].
    now apply noneFulfilled_callback.
  - destruct (hasHandler _ _); [|exact H].
    destruct (onIQ_frame getText iq w) as (_ & _ & Hp & _).
    unfold noneFulfilled. now rewrite Hp.
Qed.

Lemma noneFulfilled_run (w : World) (trace : list Action) :
  noneFulfilled w -> noneFulfilled (run getText w trace).
Proof.
  intro H. induction trace as [|a l IH] using rev_ind; [exact H|].
  rewrite run_snoc. now apply noneFulfilled_step.
Qed.

(** The half of [join()] and [leave()] that works: an error answer rejects
    the promise with what the connection reports. *)
Lemma join_failure_rejects (w : World) (error : option Node) :
  _hasJoined (this w) = false ->
  promiseState (fst (join w))
    (step getText (snd (join w))
       (Failure (List.length (waiting (_connection w))) error))
  = Some (Rejected (TransportError error)).
Proof.
  intro H. unfold join. rewrite H. simpl.
  rewrite nth_error_snoc. simpl. unfold promiseState, reject. simpl.
  now rewrite nth_error_updateNth_snoc.
Qed.

Lemma leave_failure_rejects (w : World) (error : option Node) :
  _hasJoined (this w) = true ->
  promiseState (fst (leave w))
    (step getText (snd (leave w))
       (Failure (List.length (waiting (_connection w))) error))
  = Some (Rejected (TransportError error)).
Proof.
  intro H. unfold leave. rewrite H. simpl.
  rewrite nth_error_snoc. simpl. unfold promiseState, reject. simpl.
  now rewrite nth_error_updateNth_snoc.
Qed.

End Promises.

(** C1 fails on the code.  No promise that [join()] or [leave()] returns is
    ever fulfilled, whatever happens: after the queue acknowledges a join,
    the flag is up, no request is waiting any more and the promise is still
    pending; the same holds for a leave that the queue acknowledges. *)
Theorem acknowledged_join_and_leave_stay_pending (getText : Node -> string)
  (jid room : string) :
  (forall trace p,
     promiseState p (run getText (fresh jid room) trace) <> Some Fulfilled) /\
  (let w := run getText (fresh jid room) [Join; Success 0 None] in
   _hasJoined (this w) = true /\ waiting (_connection w) = [] /\
   promiseState 0 w = Some Pending) /\
  (let w := run getText (fresh jid room)
                [Join; Success 0 None; Leave; Success 0 None] in
   waiting (_connection w) = [] /\ promiseState 1 w = Some Pending).
Proof.
  split; [|split; [repeat split | repeat split]].
  intros trace p H.
  assert (Hn : noneFulfilled (run getText (fresh jid room) trace))
    by (apply noneFulfilled_run; constructor).
  unfold noneFulfilled in Hn. rewrite Forall_forall in Hn.
  apply (Hn Fulfilled); [|reflexivity].
  apply (nth_error_In _ p). exact H.
Qed.

(** ** Further properties of the class *)

(** *** Construction *)

Lemma hasHandler_deleteHandler (ref : nat) (conn : XmppConnection) :
  hasHandler ref (deleteHandler ref conn) = false.
Proof.
  unfold hasHandler, deleteHandler. simpl.
  induction (handlers conn) as [|[r h] l IH]; [reflexivity|].
  simpl. destruct (Nat.eqb r ref) eqn:E; simpl; [exact IH|].
  now rewrite E.
Qed.

Lemma hasHandler_deleteHandler_other (ref ref' : nat) (conn : XmppConnection) :
  ref <> ref' ->
  hasHandler ref' (deleteHandler ref conn) = hasHandler ref' conn.
Proof.
  intro Hn. unfold hasHandler, deleteHandler. simpl.
  induction (handlers conn) as [|[r h] l IH]; [reflexivity|].
  simpl. destruct (Nat.eqb r ref) eqn:E; simpl.
  - apply Nat.eqb_eq in E. subst r.
    rewrite (proj2 (Nat.eqb_neq ref ref') Hn). exact IH.
  - now rewrite IH.
Qed.

(** X1. Two instances made one after the other on the same connection get
    consecutive ids from the module counter and different handler
    references; each registers one handler, filtered on the namespace of
    the queue, [iq], [set] and the bare JID of its own queue.  Both handlers
    are registered afterwards, and disposing the first instance unregisters
    its own handler only. *)
Theorem instances_share_a_connection (conn : XmppConnection)
  (jid1 room1 jid2 room2 : string) (n : nat) :
  let w1 := fst (constructor conn jid1 room1 n) in
  let n1 := snd (constructor conn jid1 room1 n) in
  let w2 := fst (constructor (_connection w1) jid2 room2 n1) in
  let ref1 := _connectionHandlerRef (this w1) in
  let ref2 := _connectionHandlerRef (this w2) in
  (id (this w1) = n /\ id (this w2) = S n) /\
  ref1 <> ref2 /\
  handlers (_connection w2)
    = handlers conn
        ++ [(ref1, mkHandler "http://jitsi.org/protocol/jibri-queue"
                             "iq" "set" None jid1 true);
            (ref2, mkHandler "http://jitsi.org/protocol/jibri-queue"
                             "iq" "set" None jid2 true)] /\
  (hasHandler ref1 (_connection w2) = true /\
   hasHandler ref2 (_connection w2) = true) /\
  (let disposed := dispose (withConnection (_connection w2) w1) in
   hasHandler ref1 (_connection disposed) = false /\
   hasHandler ref2 (_connection disposed) = true).
Proof.
  cbv zeta. simpl.
  assert (Hne : nextRef conn <> S (nextRef conn)) by lia.
  assert (H1 : hasHandler (nextRef conn)
                 (mkConnection
                    ((handlers conn
                        ++ [(nextRef conn,
                             mkHandler jibriQueueNs "iq" "set" None jid1 true)])
                       ++ [(S (nextRef conn),
                            mkHandler jibriQueueNs "iq" "set" None jid2 true)])
                    (S (S (nextRef conn))) (sent conn) (requested conn)
                    (waiting conn)) = true).
  { unfold hasHandler. simpl. rewrite !existsb_app. simpl.
    now rewrite Nat.eqb_refl, !orb_true_r. }
  assert (H2 : hasHandler (S (nextRef conn))
                 (mkConnection
                    ((handlers conn
                        ++ [(nextRef conn,
                             mkHandler jibriQueueNs "iq" "set" None jid1 true)])
                       ++ [(S (nextRef conn),
                            mkHandler jibriQueueNs "iq" "set" None jid2 true)])
                    (S (S (nextRef conn))) (sent conn) (requested conn)
                    (waiting conn)) = true).
  { unfold hasHandler. simpl. rewrite !existsb_app. simpl.
    now rewrite Nat.eqb_refl, !orb_true_r. }
  split; [now split|]. split; [exact Hne|].
  split; [now rewrite <- app_assoc|].
  split; [now split|]. split.
  - apply hasHandler_deleteHandler.
  - rewrite hasHandler_deleteHandler_other by exact Hne. exact H2.
Qed.

(** *** Requests *)

Lemma nth_error_updateNth_fixed {A : Type} (f : A -> A) (i p : nat)
  (l : list A) (x : A) :
  nth_error l p = Some x -> f x = x ->
  nth_error (Strophe.updateNth i f l) p = Some x.
Proof.
  revert i p. induction l as [|y l IH]; intros i [|p] H Hf;
    simpl in *; try discriminate.
  - injection H as ->. destruct i; simpl; congruence.
  - destruct i; simpl; [exact H | now apply IH].
Qed.

Lemma removeNth_snoc {A : Type} (l : list A) (x : A) :
  removeNth (List.length l) (l ++ [x]) = l.
Proof.
  induction l as [|y l IH]; simpl; [reflexivity | now rewrite IH].
Qed.

(** The request made last is answered: the list of waiting requests is as
    before the request. *)
Lemma answered_sendIQ (s : Node) (cb eb : Callback) (conn : XmppConnection) :
  answered (List.length (waiting conn)) (sendIQ s cb eb conn)
  = mkConnection (handlers conn) (nextRef conn) (sent conn)
                 (requested conn ++ [s]) (waiting conn).
Proof.
  unfold answered, sendIQ. cbn [waiting handlers nextRef sent requested].
  now rewrite removeNth_snoc.
Qed.

Lemma nth_error_grows {A : Type} (l : list A) (x y : A) (p : nat) :
  nth_error l p = Some x -> nth_error (l ++ [y]) p = Some x.
Proof.
  intro H. rewrite nth_error_app1; [exact H|].
  apply nth_error_Some. congruence.
Qed.

(** X2. [join()] on an instance that has not joined sends one request and
    nothing else: an [iq] of type [set] to the queue, in the namespace of
    client stanzas, with one [jibri-queue] child carrying the namespace of
    the queue, [action=join] and the room.  The promise
    it returns is new and pending, and the instance is as before: the flag
    is not raised by the call itself. *)
Theorem join_sends_one_join_request (w : World) :
  _hasJoined (this w) = false ->
  let w' := snd (join w) in
  requested (_connection w')
    = requested (_connection w)
        ++ [Elem "iq"
              [("to", _jibriQueueJID (this w)); ("type", "set");
               ("xmlns", "jabber:client")]
              [Elem "jibri-queue"
                 [("xmlns", "http://jitsi.org/protocol/jibri-queue");
                  ("action", "join"); ("room", _roomJID (this w))] []]] /\
  sent (_connection w') = sent (_connection w) /\
  handlers (_connection w') = handlers (_connection w) /\
  promises w' = promises w ++ [Pending] /\
  promiseState (fst (join w)) w' = Some Pending /\
  this w' = this w /\
  events w' = events w.
Proof.
  intro H. unfold join. rewrite H. unfold promiseState. simpl.
  rewrite nth_error_snoc. repeat split.
Qed.

Lemma join_sends_one_join_request_witness :
  requested (_connection (snd (join Sample.start)))
  = [Elem "iq"
       [("to", Sample.queueJid); ("type", "set"); ("xmlns", "jabber:client")]
       [Elem "jibri-queue"
          [("xmlns", "http://jitsi.org/protocol/jibri-queue");
           ("action", "join"); ("room", Sample.roomJid)] []]].
Proof.
  apply (join_sends_one_join_request Sample.start). reflexivity.
Defined.

(** X3. [leave()] on an instance that has joined sends one request and
    nothing else: an [iq] of type [set] to the queue, in the namespace of
    client stanzas, with one [jibri-queue] child carrying the namespace of
    the queue and [action=leave], and no room.  The
    promise is new and pending, and the instance is as before. *)
Theorem leave_sends_one_leave_request (w : World) :
  _hasJoined (this w) = true ->
  let w' := snd (leave w) in
  requested (_connection w')
    = requested (_connection w)
        ++ [Elem "iq"
              [("to", _jibriQueueJID (this w)); ("type", "set");
               ("xmlns", "jabber:client")]
              [Elem "jibri-queue"
                 [("xmlns", "http://jitsi.org/protocol/jibri-queue");
                  ("action", "leave")] []]] /\
  sent (_connection w') = sent (_connection w) /\
  handlers (_connection w') = handlers (_connection w) /\
  promises w' = promises w ++ [Pending] /\
  promiseState (fst (leave w)) w' = Some Pending /\
  this w' = this w /\
  events w' = events w.
Proof.
  intro H. unfold leave. rewrite H. unfold promiseState. simpl.
  rewrite nth_error_snoc. repeat split.
Qed.

Lemma leave_sends_one_leave_request_witness :
  requested (_connection (snd (leave Sample.joined)))
  = requested (_connection Sample.joined)
      ++ [Elem "iq"
            [("to", Sample.queueJid); ("type", "set");
             ("xmlns", "jabber:client")]
            [Elem "jibri-queue"
               [("xmlns", "http://jitsi.org/protocol/jibri-queue");
                ("action", "leave")] []]].
Proof.
  apply (leave_sends_one_leave_request Sample.joined). reflexivity.
Defined.

(** X5. [join()] does not look at requests in flight: called twice before
    any answer, it sends two join requests and returns two different
    promises, both pending. *)
Theorem join_in_flight_is_not_guarded (w : World) :
  _hasJoined (this w) = false ->
  let w1 := snd (join w) in
  let w2 := snd (join w1) in
  fst (join w) <> fst (join w1) /\
  promiseState (fst (join w)) w2 = Some Pending /\
  promiseState (fst (join w1)) w2 = Some Pending /\
  requested (_connection w2)
    = requested (_connection w)
        ++ [joinStanza (this w); joinStanza (this w)] /\
  List.length (waiting (_connection w2))
    = 2 + List.length (waiting (_connection w)).
Proof.
  intro H. cbv zeta.
  assert (E1 : join w
               = (List.length (promises w),
                  withConnection
                    (sendIQ (joinStanza (this w)) JoinSuccess
                            (JoinError (List.length (promises w)))
                            (_connection w))
                    (withPromises (promises w ++ [Pending]) w)))
    by (unfold join; now rewrite H).
  rewrite E1. cbn [fst snd]. unfold join. cbn [this withConnection
    withPromises]. rewrite H. unfold promiseState. simpl.
  rewrite !length_app. simpl. repeat split.
  - lia.
  - apply nth_error_grows, nth_error_snoc.
  - replace (List.length (promises w) + 1)
      with (List.length (promises w ++ [Pending]))
      by (rewrite length_app; reflexivity).
    apply nth_error_snoc.
  - now rewrite <- app_assoc.
  - lia.
Qed.

Lemma join_in_flight_is_not_guarded_witness :
  List.length
    (waiting (_connection (snd (join (snd (join Sample.start)))))) = 2.
Proof.
  apply (join_in_flight_is_not_guarded Sample.start). reflexivity.
Defined.

(** *** What a step leaves alone *)

Section Steps.

Variable getText : Node -> string.

(** What [_onIQ] never touches, besides the requests and the promises. *)
Lemma onIQ_keeps (iq : Node) (w : World) :
  let w' := snd (_onIQ getText iq w) in
  handlers (_connection w') = handlers (_connection w) /\
  _connectionHandlerRef (this w') = _connectionHandlerRef (this w) /\
  _id (this w') = _id (this w) /\
  listeners (events w') = listeners (events w).
Proof.
  cbv zeta.
  destruct (accepted_or_ignored iq w) as [[jq H] | H].
  - rewrite (onIQ_accepted getText iq w jq H). cbv zeta.
    destruct (isAction "info" (getAttribute "action" jq)).
    + destruct (infoLoop getText (children jq) (_metrics (this w)))
        as [m [|]]; repeat split.
    + destruct (isAction "token" (getAttribute "action" jq)); repeat split.
  - assert (E : _onIQ getText iq w = (false, w)).
    { destruct H as [H | H];
        [now apply onIQ_not_joined | now apply onIQ_invalid]. }
    rewrite E. repeat split.
Qed.

(** The addresses of an instance never change. *)
Lemma step_addresses (w : World) (a : Action) :
  _jibriQueueJID (this (step getText w a)) = _jibriQueueJID (this w) /\
  _roomJID (this (step getText w a)) = _roomJID (this w).
Proof.
  destruct a as [| | |n l|i res|i err|iq]; simpl.
  - unfold join. now destruct (_hasJoined (this w)).
  - unfold leave. now destruct (_hasJoined (this w)).
  - now split.
  - now split.
  - destruct (nth_error (waiting (_connection w)) i) as [r|]; [|now split].
    now destruct (callback r).
  - destruct (nth_error (waiting (_connection w)) i) as [r|]; [|now split].
    now destruct (errback r).
  - destruct (hasHandler _ _); [|now split].
    destruct (onIQ_frame getText iq w) as (_ & _ & _ & _ & Hq & Hr).
    now split.
Qed.

Lemma run_addresses (w : World) (trace : list Action) :
  _jibriQueueJID (this (run getText w trace)) = _jibriQueueJID (this w) /\
  _roomJID (this (run getText w trace)) = _roomJID (this w).
Proof.
  induction trace as [|a l [IHq IHr]] using rev_ind; [now split|].
  rewrite run_snoc.
  destruct (step_addresses (run getText w l) a) as [Hq Hr].
  split; congruence.
Qed.

(** The flag never goes down. *)
Lemma step_keeps_joined (w : World) (a : Action) :
  _hasJoined (this w) = true -> _hasJoined (this (step getText w a)) = true.
Proof.
  intro H. destruct a as [| | |n l|i res|i err|iq]; simpl.
  - unfold join. now rewrite H.
  - unfold leave. now rewrite H.
  - exact H.
  - exact H.
  - destruct (nth_error (waiting (_connection w)) i) as [r|]; [|exact H].
    now destruct (callback r).
  - destruct (nth_error (waiting (_connection w)) i) as [r|]; [|exact H].
    now destruct (errback r).
  - destruct (hasHandler _ _); [|exact H].
    destruct (onIQ_frame getText iq w) as (_ & _ & _ & Hj & _).
    congruence.
Qed.

(** A rejected promise stays as it is. *)
Lemma step_keeps_rejected (w : World) (a : Action) (p : nat) (r : Reason) :
  promiseState p w = Some (Rejected r) ->
  promiseState p (step getText w a) = Some (Rejected r).
Proof.
  unfold promiseState. intro H.
  assert (Hcb : forall cb arg w0,
             promises w0 = promises w ->
             nth_error (promises (runCallback cb arg w0)) p
             = Some (Rejected r)).
  { intros cb arg w0 E. destruct cb; simpl; rewrite E; try exact H;
      now apply nth_error_updateNth_fixed. }
  destruct a as [| | |n l|i res|i err|iq]; simpl.
  - unfold join. destruct (_hasJoined (this w)); simpl;
      now apply nth_error_grows.
  - unfold leave. destruct (_hasJoined (this w)); simpl;
      now apply nth_error_grows.
  - exact H.
  - exact H.
  - destruct (nth_error (waiting (_connection w)) i) as [rq|]; [|exact H].
    now apply Hcb.
  - destruct (nth_error (waiting (_connection w)) i) as [rq|]; [|exact H].
    now apply Hcb.
  - destruct (hasHandler _ _); [|exact H].
    destruct (onIQ_frame getText iq w) as (_ & _ & Hp & _).
    now rewrite Hp.
Qed.

Lemma run_keeps_rejected (w : World) (trace : list Action) (p : nat)
  (r : Reason) :
  promiseState p w = Some (Rejected r) ->
  promiseState p (run getText w trace) = Some (Rejected r).
Proof.
  intro H. induction trace as [|a l IH] using rev_ind; [exact H|].
  rewrite run_snoc. now apply step_keeps_rejected.
Qed.

End Steps.

(** X4. When the connection answers the request of a [join()] with an
    error, the promise is rejected with what the connection reported and
    stays so whatever happens later; the flag stays down and the request no
    longer waits, so a second [join()] is not turned down by the guard: it
    sends a second join request. *)
Theorem failed_join_can_be_retried (getText : Node -> string) (w : World)
  (error : option Node) (trace : list Action) :
  _hasJoined (this w) = false ->
  let p := fst (join w) in
  let w2 := step getText (snd (join w))
              (Failure (List.length (waiting (_connection w))) error) in
  promiseState p (run getText w2 trace)
    = Some (Rejected (TransportError error)) /\
  _hasJoined (this w2) = false /\
  waiting (_connection w2) = waiting (_connection w) /\
  requested (_connection (snd (join w2)))
    = requested (_connection w)
        ++ [joinStanza (this w); joinStanza (this w)].
Proof.
  intros H p w2.
  assert (Hp : promiseState p w2 = Some (Rejected (TransportError error)))
    by (apply join_failure_rejects; exact H).
  split; [now apply run_keeps_rejected|].
  clear Hp.
  assert (E2 : w2 = reject (List.length (promises w)) (TransportError error)
                      (withConnection
                         (mkConnection
                            (handlers (_connection w)) (nextRef (_connection w))
                            (sent (_connection w))
                            (requested (_connection w) ++ [joinStanza (this w)])
                            (waiting (_connection w)))
                         (withPromises (promises w ++ [Pending]) w))).
  { subst w2. unfold join. rewrite H.
    cbn [snd step newPromise fst withConnection withPromises _connection
         this events promises].
    cbn [sendIQ waiting]. rewrite nth_error_snoc.
    cbn [errback runCallback].
    change (mkConnection (handlers (_connection w)) (nextRef (_connection w))
              (sent (_connection w))
              (requested (_connection w) ++ [joinStanza (this w)])
              (waiting (_connection w)
                 ++ [mkRequest (joinStanza (this w)) JoinSuccess
                       (JoinError (List.length (promises w)))]))
      with (sendIQ (joinStanza (this w)) JoinSuccess
              (JoinError (List.length (promises w))) (_connection w)).
    rewrite answered_sendIQ. reflexivity. }
  rewrite E2.
  split; [exact H | split; [reflexivity|]].
  unfold join. cbn [this reject withPromises withConnection]. rewrite H.
  simpl. now rewrite <- app_assoc.
Qed.

Lemma failed_join_can_be_retried_witness :
  promiseState 0
    (run Sample.textOf
       (step Sample.textOf (snd (join Sample.start)) (Failure 0 None))
       [Join; Success 0 None])
  = Some (Rejected (TransportError None)).
Proof.
  apply (failed_join_can_be_retried Sample.textOf Sample.start None
           [Join; Success 0 None]).
  reflexivity.
Defined.

(** X11. The flag is never lowered: once the instance has joined, it counts
    as joined after every further call, answer and delivery, also after a
    [leave()] that the queue acknowledged and after [dispose()]; a [join()]
    made then is turned down and sends nothing. *)
Theorem joined_is_permanent (getText : Node -> string) (w : World)
  (trace : list Action) :
  _hasJoined (this w) = true ->
  let w' := run getText w trace in
  _hasJoined (this w') = true /\
  _connection (snd (join w')) = _connection w' /\
  promiseState (fst (join w')) (snd (join w'))
    = Some (Rejected (Error "The queue is already joined!")).
Proof.
  intros H w'.
  assert (Hj : _hasJoined (this w') = true).
  { subst w'. induction trace as [|a l IH] using rev_ind; [exact H|].
    rewrite run_snoc. now apply step_keeps_joined. }
  split; [exact Hj|]. unfold join. rewrite Hj.
  unfold promiseReject, promiseState. simpl.
  now rewrite nth_error_snoc.
Qed.

Lemma joined_is_permanent_witness :
  _hasJoined
    (this (run Sample.textOf Sample.joined
             [Leave; Success 0 None; Dispose; Join])) = true.
Proof.
  apply (joined_is_permanent Sample.textOf Sample.joined
           [Leave; Success 0 None; Dispose; Join]).
  reflexivity.
Defined.

(** *** After [dispose()] *)

Section Disposed.

Variable getText : Node -> string.

Lemma disposed_step (w : World) (a : Action) :
  hasHandler (_connectionHandlerRef (this w)) (_connection w) = false ->
  let w' := step getText w a in
  hasHandler (_connectionHandlerRef (this w')) (_connection w') = false /\
  sent (_connection w') = sent (_connection w) /\
  emitted (events w') = emitted (events w) /\
  delivered (events w') = delivered (events w) /\
  _metrics (this w') = _metrics (this w).
Proof.
  intro H. cbv zeta. destruct a as [| | |n l|i res|i err|iq]; simpl.
  - unfold join. destruct (_hasJoined (this w)); simpl; now repeat split.
  - unfold leave. destruct (_hasJoined (this w)); simpl; now repeat split.
  - split; [apply hasHandler_deleteHandler | now repeat split].
  - now repeat split.
  - destruct (nth_error (waiting (_connection w)) i) as [r|];
      [|now repeat split].
    destruct (callback r); simpl; now repeat split.
  - destruct (nth_error (waiting (_connection w)) i) as [r|];
      [|now repeat split].
    destruct (errback r); simpl; now repeat split.
  - rewrite H. now repeat split.
Qed.

End Disposed.

(** X6. After [dispose()] the instance is silent: whatever is called,
    answered or delivered afterwards, it sends no acknowledgment, emits no
    event, no listener receives anything, and the metrics stay as they
    were.  Requests that were waiting are not cancelled by it. *)
Theorem disposed_instance_is_silent (getText : Node -> string) (w : World)
  (trace : list Action) :
  let w' := run getText (dispose w) trace in
  sent (_connection w') = sent (_connection w) /\
  emitted (events w') = emitted (events w) /\
  delivered (events w') = delivered (events w) /\
  _metrics (this w') = _metrics (this w) /\
  waiting (_connection (dispose w)) = waiting (_connection w) /\
  promises (dispose w) = promises w.
Proof.
  cbv zeta.
  assert (H : hasHandler
                (_connectionHandlerRef (this (run getText (dispose w) trace)))
                (_connection (run getText (dispose w) trace)) = false /\
              sent (_connection (run getText (dispose w) trace))
                = sent (_connection w) /\
              emitted (events (run getText (dispose w) trace))
                = emitted (events w) /\
              delivered (events (run getText (dispose w) trace))
                = delivered (events w) /\
              _metrics (this (run getText (dispose w) trace))
                = _metrics (this w)).
  { induction trace as [|a l IH] using rev_ind.
    - split; [apply hasHandler_deleteHandler | now repeat split].
    - rewrite run_snoc. destruct IH as (Hh & Hs & He & Hd & Hm).
      destruct (disposed_step getText _ a Hh) as (Hh' & Hs' & He' & Hd' & Hm').
      repeat split; congruence. }
  destruct H as (_ & Hs & He & Hd & Hm). now repeat split.
Qed.

(** *** Before the join is acknowledged *)

Section Unjoined.

Variable getText : Node -> string.

Lemma unjoined_step (w : World) (a : Action) :
  wellFormed w ->
  _hasJoined (this w) = false ->
  isSuccess a = false ->
  let w' := step getText w a in
  _hasJoined (this w') = false /\
  sent (_connection w') = sent (_connection w) /\
  emitted (events w') = emitted (events w) /\
  _metrics (this w') = _metrics (this w).
Proof.
  intros Hwf H Ha. cbv zeta. split.
  - destruct (_hasJoined (this (step getText w a))) eqn:E; [|reflexivity].
    destruct (flag_raised_by_join_success getText w a Hwf H E)
      as (i & res & r & -> & _).
    discriminate Ha.
  - destruct a as [| | |n l|i res|i err|iq]; simpl.
    + unfold join. rewrite H. now repeat split.
    + unfold leave. rewrite H. now repeat split.
    + now repeat split.
    + now repeat split.
    + discriminate Ha.
    + destruct (nth_error (waiting (_connection w)) i) as [r|];
        [|now repeat split].
      destruct (errback r); now repeat split.
    + destruct (hasHandler _ _); [|now repeat split].
      rewrite (onIQ_not_joined getText iq w H). now repeat split.
Qed.

End Unjoined.

(** X12. Until the connection answers a request with success, a new
    instance stays not joined and drops every stanza that is delivered to
    it: whatever is called, refused or delivered, nothing is sent as an
    acknowledgment, no event is emitted and the metrics stay empty. *)
Theorem nothing_happens_before_a_success (getText : Node -> string)
  (jid room : string) (trace : list Action) :
  forallb (fun a => negb (isSuccess a)) trace = true ->
  let w := run getText (fresh jid room) trace in
  _hasJoined (this w) = false /\
  sent (_connection w) = [] /\
  emitted (events w) = [] /\
  _metrics (this w) = mkMetrics None None.
Proof.
  intro H. cbv zeta.
  induction trace as [|a l IH] using rev_ind; [now repeat split|].
  rewrite forallb_app in H. apply andb_true_iff in H. destruct H as [Hl Ha].
  simpl in Ha. rewrite andb_true_r in Ha. apply negb_true_iff in Ha.
  destruct (IH Hl) as (Hj & Hs & He & Hm).
  rewrite run_snoc.
  destruct (unjoined_step getText (run getText (fresh jid room) l) a
              (wellFormed_run getText _ l (wellFormed_fresh jid room)) Hj Ha)
    as (Hj' & Hs' & He' & Hm').
  repeat split; congruence.
Qed.

Lemma nothing_happens_before_a_success_witness :
  sent (_connection
          (run Sample.textOf Sample.start
             [Deliver Sample.steadyPush; Join; Deliver Sample.steadyPush;
              Failure 0 None; Deliver (Sample.tokenPush "t1" "abc")]))
  = [].
Proof.
  apply (nothing_happens_before_a_success Sample.textOf Sample.queueJid
           Sample.roomJid
           [Deliver Sample.steadyPush; Join; Deliver Sample.steadyPush;
            Failure 0 None; Deliver (Sample.tokenPush "t1" "abc")]).
  reflexivity.
Defined.

(** *** Everything the instance puts on the wire *)

Section Wire.

Variable getText : Node -> string.

Lemma stanzas_by_address (q q' : JibriQueue) :
  _jibriQueueJID q' = _jibriQueueJID q ->
  _roomJID q' = _roomJID q ->
  joinStanza q' = joinStanza q /\ leaveStanza q' = leaveStanza q.
Proof.
  unfold joinStanza, leaveStanza. intros -> ->. now split.
Qed.

Lemma step_sent (w : World) (a : Action) :
  sent (_connection (step getText w a)) = sent (_connection w) \/
  exists ack,
    sent (_connection (step getText w a)) = sent (_connection w) ++ [ack] /\
    isAck (_jibriQueueJID (this w)) ack.
Proof.
  destruct a as [| | |n l|i res|i err|iq]; simpl.
  - left. unfold join. now destruct (_hasJoined (this w)).
  - left. unfold leave. now destruct (_hasJoined (this w)).
  - now left.
  - now left.
  - left. destruct (nth_error (waiting (_connection w)) i) as [r|];
      [|reflexivity].
    now destruct (callback r).
  - left. destruct (nth_error (waiting (_connection w)) i) as [r|];
      [|reflexivity].
    now destruct (errback r).
  - destruct (hasHandler _ _); [|now left].
    destruct (accepted_or_ignored iq w) as [[jq H] | H].
    + right.
      destruct (onIQ_accepted_sent getText iq w jq H) as (_ & ack & Hs & Ha).
      exists ack. split; [exact Hs|].
      exists (getAttribute "id" iq). exact Ha.
    + left.
      assert (E : _onIQ getText iq w = (false, w)).
      { destruct H as [H | H];
          [now apply onIQ_not_joined | now apply onIQ_invalid]. }
      now rewrite E.
Qed.

Lemma step_requested (w : World) (a : Action) :
  requested (_connection (step getText w a)) = requested (_connection w) \/
  requested (_connection (step getText w a))
    = requested (_connection w) ++ [joinStanza (this w)] \/
  requested (_connection (step getText w a))
    = requested (_connection w) ++ [leaveStanza (this w)].
Proof.
  destruct a as [| | |n l|i res|i err|iq]; simpl.
  - unfold join. destruct (_hasJoined (this w)); [now left|].
    right. now left.
  - unfold leave. destruct (_hasJoined (this w)); [|now left].
    right. now right.
  - now left.
  - now left.
  - left. destruct (nth_error (waiting (_connection w)) i) as [r|];
      [|reflexivity].
    now destruct (callback r).
  - left. destruct (nth_error (waiting (_connection w)) i) as [r|];
      [|reflexivity].
    now destruct (errback r).
  - left. destruct (hasHandler _ _); [|reflexivity].
    now destruct (onIQ_frame getText iq w) as (_ & Hr & _).
Qed.

End Wire.

(** X13. Over its whole life an instance puts two kinds of stanza on the
    wire and no other: with [send], acknowledgments addressed to its queue
    (a result, or the error of an unknown action); with [sendIQ], the join
    request and the leave request for its queue and room. *)
Theorem only_acks_and_requests_are_sent (getText : Node -> string)
  (jid room : string) (trace : list Action) :
  let w := run getText (fresh jid room) trace in
  Forall (isAck jid) (sent (_connection w)) /\
  Forall (fun s => s = joinStanza (this (fresh jid room)) \/
                   s = leaveStanza (this (fresh jid room)))
         (requested (_connection w)).
Proof.
  cbv zeta. induction trace as [|a l [IHs IHr]] using rev_ind.
  - split; constructor.
  - rewrite run_snoc.
    destruct (run_addresses getText (fresh jid room) l) as [Hq Hr].
    destruct (stanzas_by_address (this (fresh jid room))
                (this (run getText (fresh jid room) l)) Hq Hr) as [Ej El].
    split.
    + destruct (step_sent getText (run getText (fresh jid room) l) a)
        as [E | (ack & E & Ha)]; rewrite E; [exact IHs|].
      apply Forall_app. split; [exact IHs|].
      constructor; [|constructor]. now rewrite Hq in Ha.
    + destruct (step_requested getText (run getText (fresh jid room) l) a)
        as [E | [E | E]]; rewrite E; [exact IHr | |];
        (apply Forall_app; split; [exact IHr|]);
        (constructor; [|constructor]).
      * left. exact Ej.
      * right. exact El.
Qed.

(** *** The acknowledgment of an accepted stanza *)

(** X7. The acknowledgment of an accepted stanza is an [iq] addressed to the
    sender of the stanza; it carries the [id] of the stanza, and no [id]
    when the stanza has none; its type is [result] for an ['info'] or a
    ['token'] push and [error] for anything else. *)
Theorem ack_mirrors_the_stanza (getText : Node -> string) (iq : Node)
  (w : World) (jq : Node) :
  accepted iq w jq ->
  exists ack,
    sent (_connection (snd (_onIQ getText iq w)))
      = sent (_connection w) ++ [ack] /\
    tagName ack = Some "iq" /\
    getAttribute "to" ack = getAttribute "from" iq /\
    getAttribute "id" ack = getAttribute "id" iq /\
    getAttribute "type" ack
      = Some (if isAction "info" (getAttribute "action" jq)
                 || isAction "token" (getAttribute "action" jq)
              then "result" else "error").
Proof.
  intro H. rewrite (onIQ_accepted getText iq w jq H). cbv zeta.
  destruct H as (_ & Hf & _). rewrite Hf.
  destruct (isAction "info" (getAttribute "action" jq)).
  - destruct (infoLoop getText (children jq) (_metrics (this w))) as [m [|]];
      (eexists; split; [reflexivity|]);
      destruct (getAttribute "id" iq); repeat split.
  - destruct (isAction "token" (getAttribute "action" jq));
      (eexists; split; [reflexivity|]);
      destruct (getAttribute "id" iq); repeat split.
Qed.

Lemma ack_mirrors_the_stanza_witness :
  exists ack,
    sent (_connection
            (snd (_onIQ Sample.textOf (Sample.tokenPush "t1" "abc")
                        Sample.joined)))
      = sent (_connection Sample.joined) ++ [ack] /\
    tagName ack = Some "iq" /\
    getAttribute "to" ack
      = getAttribute "from" (Sample.tokenPush "t1" "abc") /\
    getAttribute "id" ack = getAttribute "id" (Sample.tokenPush "t1" "abc") /\
    getAttribute "type" ack = Some "result".
Proof.
  apply (ack_mirrors_the_stanza Sample.textOf (Sample.tokenPush "t1" "abc")
           Sample.joined
           (Elem "jibri-queue"
              [("xmlns", jibriQueueNs); ("action", "token"); ("value", "abc")]
              [])).
  repeat split; reflexivity.
Defined.

(** X10. Of an accepted stanza only the sender, the [id] and the first
    [jibri-queue] element count, wherever that element sits below the
    [iq]: two stanzas that agree on them are handled alike, whatever else
    they contain, a second [jibri-queue] element included. *)
Theorem only_the_first_payload_counts (getText : Node -> string)
  (iq1 iq2 : Node) (w : World) (jq : Node) :
  accepted iq1 w jq ->
  accepted iq2 w jq ->
  getAttribute "id" iq1 = getAttribute "id" iq2 ->
  _onIQ getText iq1 w = _onIQ getText iq2 w.
Proof.
  intros H1 H2 Hid.
  rewrite (onIQ_accepted getText iq1 w jq H1).
  rewrite (onIQ_accepted getText iq2 w jq H2).
  now rewrite Hid.
Qed.

Lemma only_the_first_payload_counts_witness :
  _onIQ Sample.textOf Sample.nestedPush Sample.joined
  = _onIQ Sample.textOf (Sample.tokenPush "t1" "abc") Sample.joined.
Proof.
  apply (only_the_first_payload_counts Sample.textOf Sample.nestedPush
           (Sample.tokenPush "t1" "abc") Sample.joined
           (Elem "jibri-queue"
              [("xmlns", jibriQueueNs); ("action", "token"); ("value", "abc")]
              [])).
  - repeat split; reflexivity.
  - repeat split; reflexivity.
  - reflexivity.
Defined.

(** *** More on the metrics *)

Section Metrics.

Variable getText : Node -> string.

Lemma lastTagged_in (t : string) (cs : list Node) (c : Node) :
  lastTagged t cs = Some c -> In c cs /\ hasTag t c = true.
Proof.
  unfold lastTagged.
  destruct (rev (filter (hasTag t) cs)) as [|x l] eqn:E; [discriminate|].
  intro H. injection H as ->.
  apply (proj1 (filter_In (hasTag t) c cs)).
  apply (proj2 (in_rev (filter (hasTag t) cs) c)).
  rewrite E. now left.
Qed.

Lemma lastTagged_exists (t : string) (cs : list Node) (c : Node) :
  In c cs -> hasTag t c = true -> exists c', lastTagged t cs = Some c'.
Proof.
  intros Hc Ht. unfold lastTagged.
  destruct (rev (filter (hasTag t) cs)) as [|x l] eqn:E; [|now exists x].
  assert (Hin : In c (rev (filter (hasTag t) cs))).
  { apply (proj1 (in_rev (filter (hasTag t) cs) c)).
    apply (proj2 (filter_In (hasTag t) c cs)). now split. }
  rewrite E in Hin. contradiction.
Qed.

Lemma lastTagged_cons_other (t : string) (x : Node) (cs : list Node) :
  hasTag t x = false -> lastTagged t (x :: cs) = lastTagged t cs.
Proof. intro H. unfold lastTagged. simpl. now rewrite H. Qed.

(** The first child of a tag, and what comes before it. *)
Lemma first_tagged (t : string) (cs : list Node) (c : Node) :
  In c cs -> hasTag t c = true ->
  exists pre c' post,
    cs = pre ++ c' :: post /\ hasTag t c' = true /\ lastTagged t pre = None.
Proof.
  induction cs as [|x l IH]; intros Hc Ht; [contradiction|].
  destruct (hasTag t x) eqn:E.
  - exists [], x, l. now repeat split.
  - destruct Hc as [-> | Hc]; [congruence|].
    destruct (IH Hc Ht) as (pre & c' & post & -> & Ht' & Hn).
    exists (x :: pre), c', post.
    repeat split; [exact Ht'|]. now rewrite lastTagged_cons_other.
Qed.

(** A step writes the metrics through the loop, or not at all. *)
Lemma onIQ_metrics (iq : Node) (w : World) :
  exists cs,
    _metrics (this (snd (_onIQ getText iq w)))
    = fst (infoLoop getText cs (_metrics (this w))).
Proof.
  destruct (accepted_or_ignored iq w) as [[jq H] | H].
  - rewrite (onIQ_accepted getText iq w jq H). cbv zeta.
    destruct (isAction "info" (getAttribute "action" jq)).
    + exists (children jq).
      now destruct (infoLoop getText (children jq) (_metrics (this w)))
        as [m [|]].
    + exists []. now destruct (isAction "token" (getAttribute "action" jq)).
  - assert (E : _onIQ getText iq w = (false, w)).
    { destruct H as [H | H];
        [now apply onIQ_not_joined | now apply onIQ_invalid]. }
    rewrite E. now exists [].
Qed.

Lemma step_metrics (w : World) (a : Action) :
  exists cs,
    _metrics (this (step getText w a))
    = fst (infoLoop getText cs (_metrics (this w))).
Proof.
  destruct a as [| | |n l|i res|i err|iq]; simpl.
  - exists []. unfold join. now destruct (_hasJoined (this w)).
  - exists []. unfold leave. now destruct (_hasJoined (this w)).
  - now exists [].
  - now exists [].
  - exists []. destruct (nth_error (waiting (_connection w)) i) as [r|];
      [|reflexivity].
    now destruct (callback r).
  - exists []. destruct (nth_error (waiting (_connection w)) i) as [r|];
      [|reflexivity].
    now destruct (errback r).
  - destruct (hasHandler _ _); [apply onIQ_metrics | now exists []].
Qed.

Lemma infoLoop_keeps_set (cs : list Node) (m : Metrics) :
  (position m <> None -> position (fst (infoLoop getText cs m)) <> None) /\
  (estimatedTimeLeft m <> None ->
   estimatedTimeLeft (fst (infoLoop getText cs m)) <> None).
Proof.
  destruct (infoLoop_last_wins getText cs m) as [Hp Ht].
  rewrite Hp, Ht.
  destruct (lastTagged "position" cs), (lastTagged "time" cs);
    split; intro H; try exact H; discriminate.
Qed.

End Metrics.

(** X8. A field of the metrics that holds a value is never cleared: after
    any further calls, answers and deliveries it still holds one.  The
    metrics are not reset by [leave()], by [dispose()] or by a new
    [join()]. *)
Theorem stored_fields_are_never_cleared (getText : Node -> string)
  (w : World) (trace : list Action) :
  let m := _metrics (this w) in
  let m' := _metrics (this (run getText w trace)) in
  (position m <> None -> position m' <> None) /\
  (estimatedTimeLeft m <> None -> estimatedTimeLeft m' <> None).
Proof.
  cbv zeta. induction trace as [|a l [IHp IHt]] using rev_ind;
    [now split|].
  rewrite run_snoc.
  destruct (step_metrics getText (run getText w l) a) as [cs ->].
  destruct (infoLoop_keeps_set getText cs (_metrics (this (run getText w l))))
    as [Hp Ht].
  split; auto.
Qed.

Lemma stored_fields_are_never_cleared_witness :
  position
    (_metrics
       (this (run Sample.textOf Sample.informed
                [Deliver Sample.emptyInfoPush; Leave; Success 0 None;
                 Dispose])))
  <> None.
Proof.
  apply (stored_fields_are_never_cleared Sample.textOf Sample.informed
           [Deliver Sample.emptyInfoPush; Leave; Success 0 None; Dispose]).
  discriminate.
Defined.

(** X9. When the fields of an accepted ['info'] push agree (no tag is
    repeated with two different texts), handling the push a second time
    right after the first changes nothing and emits nothing, whatever was
    stored before the first: the second push is only acknowledged. *)
Theorem agreeing_push_is_quiet_the_second_time (getText : Node -> string)
  (iq : Node) (w : World) (jq : Node) :
  accepted iq w jq ->
  getAttribute "action" jq = Some "info" ->
  agreeing getText (children jq) ->
  let w1 := snd (_onIQ getText iq w) in
  let w2 := snd (_onIQ getText iq w1) in
  this w2 = this w1 /\
  events w2 = events w1 /\
  sent (_connection w2)
    = sent (_connection w1)
        ++ [resultAck (_jibriQueueJID (this w)) (getAttribute "id" iq)].
Proof.
  intros H Ha Hag w1 w2.
  assert (Em : _metrics (this w1)
               = fst (infoLoop getText (children jq) (_metrics (this w)))).
  { subst w1. rewrite (onIQ_info getText iq w jq H Ha). cbv zeta.
    now destruct (infoLoop getText (children jq) (_metrics (this w)))
      as [m [|]]. }
  destruct (onIQ_frame getText iq w) as (_ & _ & _ & Hj & Hq & _).
  fold w1 in Hj, Hq.
  assert (H1 : accepted iq w1 jq).
  { destruct H as (Hj0 & Hf & Hn). unfold accepted.
    rewrite Hj, Hq. now repeat split. }
  destruct (infoLoop_last_wins getText (children jq) (_metrics (this w)))
    as [Hp Ht].
  rewrite <- Em in Hp, Ht.
  assert (Hs : allStored getText (_metrics (this w1)) (children jq)).
  { intros c Hc. split; intro Htag.
    - destruct (lastTagged_exists "position" (children jq) c Hc
                  (proj1 (tagName_hasTag "position" c) Htag)) as [c' Hl].
      rewrite Hp, Hl. f_equal. symmetry.
      destruct (lastTagged_in _ _ _ Hl) as [Hc' Ht'].
      apply tagName_hasTag in Ht'.
      apply Hag; [exact Hc | exact Hc' | congruence | now left].
    - destruct (lastTagged_exists "time" (children jq) c Hc
                  (proj1 (tagName_hasTag "time" c) Htag)) as [c' Hl].
      rewrite Ht, Hl. f_equal. symmetry.
      destruct (lastTagged_in _ _ _ Hl) as [Hc' Ht'].
      apply tagName_hasTag in Ht'.
      apply Hag; [exact Hc | exact Hc' | congruence | now right]. }
  subst w2. rewrite (onIQ_info_quiet getText iq w1 jq H1 Ha Hs).
  rewrite Hq. now repeat split.
Qed.

Lemma agreeing_push_is_quiet_the_second_time_witness :
  events (run Sample.textOf Sample.joined
            [Deliver Sample.steadyPush; Deliver Sample.steadyPush])
  = events (run Sample.textOf Sample.joined [Deliver Sample.steadyPush]).
Proof.
  apply (agreeing_push_is_quiet_the_second_time Sample.textOf
           Sample.steadyPush Sample.joined
           (Elem "jibri-queue" [("xmlns", jibriQueueNs); ("action", "info")]
              [Sample.field "position" "5"; Sample.field "time" "30"])).
  - repeat split; reflexivity.
  - reflexivity.
  - intros c c' [<- | [<- | []]] [<- | [<- | []]] Ht _;
      try reflexivity; discriminate Ht.
Defined.

(** X14. A field that was never stored differs from every text, the empty
    one included: an accepted ['info'] push that carries a [position] while
    no position is stored, or a [time] while no estimated time is stored,
    always emits one ['metrics'] event, and the event carries the metrics
    as they are after the push. *)
Theorem first_value_of_a_field_is_reported (getText : Node -> string)
  (iq : Node) (w : World) (jq c : Node) :
  accepted iq w jq ->
  getAttribute "action" jq = Some "info" ->
  In c (children jq) ->
  (tagName c = Some "position" /\ position (_metrics (this w)) = None) \/
  (tagName c = Some "time" /\ estimatedTimeLeft (_metrics (this w)) = None) ->
  let w' := snd (_onIQ getText iq w) in
  emitted (events w')
    = emitted (events w) ++ [MetricsEvent (_metrics (this w'))].
Proof.
  intros H Ha Hc Hnew w'.
  assert (Hu : snd (infoLoop getText (children jq) (_metrics (this w)))
               = true).
  { apply infoLoop_updated.
    destruct Hnew as [[Ht Hn] | [Ht Hn]].
    - destruct (first_tagged "position" (children jq) c Hc
                  (proj1 (tagName_hasTag "position" c) Ht))
        as (pre & c' & post & E & Ht' & Hl).
      exists pre, c', post. split; [exact E|]. left.
      split; [now apply tagName_hasTag|].
      destruct (infoLoop_last_wins getText pre (_metrics (this w)))
        as [Hp _].
      rewrite Hp, Hl, Hn. discriminate.
    - destruct (first_tagged "time" (children jq) c Hc
                  (proj1 (tagName_hasTag "time" c) Ht))
        as (pre & c' & post & E & Ht' & Hl).
      exists pre, c', post. split; [exact E|]. right.
      split; [now apply tagName_hasTag|].
      destruct (infoLoop_last_wins getText pre (_metrics (this w)))
        as [_ Hp].
      rewrite Hp, Hl, Hn. discriminate. }
  subst w'. rewrite (onIQ_info getText iq w jq H Ha). cbv zeta.
  destruct (infoLoop getText (children jq) (_metrics (this w))) as [m u].
  simpl in Hu. subst u. reflexivity.
Qed.

Lemma first_value_of_a_field_is_reported_witness :
  emitted (events (snd (_onIQ Sample.textOf Sample.steadyPush Sample.joined)))
  = [MetricsEvent (mkMetrics (Some "5") (Some "30"))].
Proof.
  apply (first_value_of_a_field_is_reported Sample.textOf Sample.steadyPush
           Sample.joined
           (Elem "jibri-queue" [("xmlns", jibriQueueNs); ("action", "info")]
              [Sample.field "position" "5"; Sample.field "time" "30"])
           (Sample.field "position" "5")).
  - repeat split; reflexivity.
  - reflexivity.
  - now left.
  - left. split; reflexivity.
Defined.
